(** * Graph Explorer demo API: evidence graph store and two-model predictor

    A shallow embedding of [backend/app/main.py]: the pydantic models become
    records, the module-level [EDGES] dict becomes an insertion-ordered
    dictionary threaded through [register_edge], the three route handlers
    become functions, and Python's [float] arithmetic is taken through a
    small interface with two instances: exact rationals (the arithmetic the
    formulas denote) and IEEE 754 binary64 (the arithmetic CPython runs, as
    [SpecFloat] specifies it bit for bit).

    The file has two parts.  The first holds the definitions: the float
    interface, dictionaries, the data model, the demo graph, the three
    routes, and the vocabulary the properties are stated in.  The second
    holds the proofs: facts about the rationals, a small theory of binary64
    rounding (rounding is monotone, the three operations keep doubles valid,
    [SFcompare] is the order of the integer line), and the properties of the
    store and of the predictor, numbered C1 to C10. *)

From Stdlib Require Import ZArith QArith Qabs Lqa Lia Bool String List.
From Stdlib Require Import Floats.SpecFloat.
Import ListNotations.

Set Implicit Arguments.

(* ------------------------------------------------------------------ *)
(** ** Python floats *)
(* ------------------------------------------------------------------ *)

(** The operations [main.py] applies to floats: decimal literals, [+], [-],
    [*] and the comparison [<] (used by the builtins [max] and [min]). *)
Class PyFloat (F : Type) : Type := {
  lit  : Q -> F;
  fadd : F -> F -> F;
  fsub : F -> F -> F;
  fmul : F -> F -> F;
  flt  : F -> F -> bool
}.

Declare Scope py_scope.
Delimit Scope py_scope with py.
Notation "# q" := (lit q%Q) (at level 1, q constr at level 0, format "# q") : py_scope.
Infix "+" := fadd : py_scope.
Infix "-" := fsub : py_scope.
Infix "*" := fmul : py_scope.

(** Exact rational arithmetic. *)
Definition Qltb (x y : Q) : bool :=
  match Qcompare x y with Lt => true | _ => false end.

#[export] Instance Q_PyFloat : PyFloat Q := {
  lit := fun q => q;
  fadd := Qplus;
  fsub := Qminus;
  fmul := Qmult;
  flt := Qltb
}.

(** IEEE 754 binary64, as specified bit for bit by [SpecFloat]. *)
Module B64.
Definition prec : Z := 53.
Definition emax : Z := 1024.
Definition t := spec_float.

Definition of_Z (z : Z) : t := binary_normalize prec emax z 0 false.

(** A decimal literal denotes the double nearest to it; the correctly
    rounded quotient of two exactly representable integers is that double. *)
Definition of_decimal (q : Q) : t :=
  SFdiv prec emax (of_Z (Qnum q)) (of_Z (Zpos (Qden q))).

Definition add : t -> t -> t := SFadd prec emax.
Definition sub : t -> t -> t := SFsub prec emax.
Definition mul : t -> t -> t := SFmul prec emax.
Definition ltb : t -> t -> bool := SFltb.
Definition leb : t -> t -> bool := SFleb.

(** The rational a finite double stands for. *)
Definition pow2 (e : Z) : Q :=
  match e with
  | Z0 => 1
  | Zpos p => inject_Z (Z.pow_pos 2 p)
  | Zneg p => / inject_Z (Z.pow_pos 2 p)
  end.

Definition to_Q (x : t) : option Q :=
  match x with
  | S754_zero _ => Some 0
  | S754_finite s m e => Some (inject_Z (cond_Zopp s (Zpos m)) * pow2 e)
  | S754_infinity _ | S754_nan => None
  end.

(** [near tol x q]: the double [x] is finite and within [tol] of [q]. *)
Definition near (tol : Q) (x : t) (q : Q) : bool :=
  match to_Q x with
  | Some v => Qle_bool (Qabs (v - q)) tol
  | None => false
  end.
End B64.

#[export] Instance B64_PyFloat : PyFloat B64.t := {
  lit := B64.of_decimal;
  fadd := B64.add;
  fsub := B64.sub;
  fmul := B64.mul;
  flt := B64.ltb
}.

(** The builtins [max(a, b)] and [min(a, b)]: the first argument is kept
    unless the second compares strictly greater (resp. smaller). *)
Definition py_max {F} `{PyFloat F} (a b : F) : F := if flt a b then b else a.
Definition py_min {F} `{PyFloat F} (a b : F) : F := if flt b a then b else a.

(* ------------------------------------------------------------------ *)
(** ** Insertion-ordered dictionaries with string keys *)
(* ------------------------------------------------------------------ *)

Definition dict (V : Type) : Type := list (string * V).

Fixpoint dict_get {V} (k : string) (d : dict V) : option V :=
  match d with
  | [] => None
  | (k', v) :: r => if String.eqb k' k then Some v else dict_get k r
  end.

(** [d[k] = v]: an existing key keeps its position, a new key goes last. *)
Fixpoint dict_set {V} (k : string) (v : V) (d : dict V) : dict V :=
  match d with
  | [] => [(k, v)]
  | (k', v') :: r =>
      if String.eqb k' k then (k', v) :: r else (k', v') :: dict_set k v r
  end.

Definition dict_keys {V} (d : dict V) : list string := map fst d.
Definition dict_values {V} (d : dict V) : list V := map snd d.

(** [for x in xs: out.append(f(x))], starting from [out = []]. *)
Definition for_append {A B} (f : A -> B) (xs : list A) : list B :=
  fold_left (fun out x => out ++ [f x]) xs [].

(** [evidence or []] *)
Definition or_empty {A} (o : option (list A)) : list A :=
  match o with
  | None => []
  | Some l => l
  end.

(* ------------------------------------------------------------------ *)
(** ** Data model *)
(* ------------------------------------------------------------------ *)

Module ParamSummary.
Record t (F : Type) : Type := mk {
  mean : F;
  sd : F;
  ci_lower : F;
  ci_upper : F
}.
End ParamSummary.

Module EvidenceItem.
Record t : Type := mk {
  id : string;
  title : string;
  summary : string;
  effect_direction : string;
  population : string;
  design : string;
  outcome_measures : list string;
  doi : option string;
  quality : option string;
  notes : option string
}.
End EvidenceItem.

Module EdgeDetail.
Record t (F : Type) : Type := mk {
  id : string;
  from_node : string;
  to_node : string;
  status : string;
  param : ParamSummary.t F;
  evidence : list EvidenceItem.t
}.
End EdgeDetail.

Module GraphNode.
Record t : Type := mk {
  id : string;
  label : string;
  level : string;
  group : option string;
  description : option string
}.
End GraphNode.

Module GraphEdge.
Record t (F : Type) : Type := mk {
  id : string;
  from_node : string;
  to_node : string;
  status : string;
  param : ParamSummary.t F
}.
End GraphEdge.

Module GraphPayload.
Record t (F : Type) : Type := mk {
  nodes : list GraphNode.t;
  edges : list (GraphEdge.t F)
}.
End GraphPayload.

Module PredictRequest.
Record t (F : Type) : Type := mk {
  wood_coverage : F;
  plant_density : F;
  spatial_clutter : F;
  glare_index : F
}.
End PredictRequest.

Module NodePrediction.
Record t (F : Type) : Type := mk {
  node_id : string;
  label : string;
  mean : F;
  ci_lower : F;
  ci_upper : F
}.
End NodePrediction.

Module PredictResponse.
Record t (F : Type) : Type := mk {
  model_a : list (NodePrediction.t F);
  model_b : list (NodePrediction.t F)
}.
End PredictResponse.

Record HTTPException : Type := mkHTTPException {
  status_code : Z;
  detail : string
}.

(** What a route handler produces: a value, or a raised [HTTPException]. *)
Inductive outcome (A : Type) : Type :=
| Return (a : A)
| Raise (e : HTTPException).
Arguments Return {A} a.
Arguments Raise {A} e.

Local Open Scope string_scope.
Local Open Scope py_scope.

(* ------------------------------------------------------------------ *)
(** ** Demo graph definition *)
(* ------------------------------------------------------------------ *)

Definition NODES : list GraphNode.t := [
  (* Architectural attributes (top band) *)
  GraphNode.mk "wood_coverage" "Wood Coverage" "attribute" (Some "materials")
    (Some "Proportion of visible wall/ceiling area finished in wood (0–1).");
  GraphNode.mk "plant_density" "Plant Density" "attribute" (Some "biophilia")
    (Some "Visible density of indoor plants or green features (0–1).");
  GraphNode.mk "spatial_clutter" "Spatial Clutter" "attribute" (Some "layout")
    (Some "Visual and physical clutter / obstruction in the space.");
  GraphNode.mk "glare_index" "Glare Index" "attribute" (Some "lighting")
    (Some "Subjective glare / harshness of lighting.");
  (* Mediators (middle band) *)
  GraphNode.mk "perceived_warmth" "Perceived Warmth" "mediator" (Some "perceptual")
    (Some "Subjective thermal / visual warmth of the space.");
  GraphNode.mk "perceived_naturalness" "Perceived Naturalness" "mediator" (Some "perceptual")
    (Some "Degree to which the space feels natural / biophilic.");
  GraphNode.mk "cognitive_load" "Cognitive Load" "mediator" (Some "cognitive")
    (Some "Momentary mental effort required to function in the space.");
  GraphNode.mk "positive_affect" "Positive Affect" "mediator" (Some "affective")
    (Some "Momentary positive mood / calmness / pleasure.");
  (* Outcomes (bottom band) *)
  GraphNode.mk "state_anxiety" "State Anxiety" "outcome" (Some "affective")
    (Some "Short-term, situational anxiety level (e.g. STAI-S).");
  GraphNode.mk "perceived_stress" "Perceived Stress" "outcome" (Some "affective")
    (Some "Self-reported stress / tension.");
  GraphNode.mk "task_performance" "Task Performance" "outcome" (Some "cognitive")
    (Some "Performance on a sustained attention / working-memory task.")
].

Section GraphStore.
Context {F : Type} `{PyFloat F}.

(** Param helper; [ci_width] defaults to 1.96. *)
Definition p (mean sd ci_width : F) : ParamSummary.t F :=
  ParamSummary.mk mean sd (mean - ci_width * sd) (mean + ci_width * sd).

Definition ci_width_default : F := #1.96.

(** [register_edge] assigns into the module-level [EDGES]; the dict is
    passed in and the updated dict returned. *)
Definition register_edge (edge_id from_node to_node : string) (mean sd : F)
    (status : string) (evidence : option (list EvidenceItem.t))
    (EDGES : dict (EdgeDetail.t F)) : dict (EdgeDetail.t F) :=
  dict_set edge_id
    (EdgeDetail.mk edge_id from_node to_node status
       (p mean sd ci_width_default) (or_empty evidence))
    EDGES.
End GraphStore.

(** The keyword arguments of one module-level [register_edge(...)] call;
    [mean] and [sd] are the decimal literals written in the call. *)
Module Call.
Record t : Type := mk {
  edge_id : string;
  from_node : string;
  to_node : string;
  mean : Q;
  sd : Q;
  status : string;
  evidence : option (list EvidenceItem.t)
}.
End Call.

(** The fourteen calls that populate the demo edges, in source order. *)
Definition register_edge_calls : list Call.t := [
  Call.mk "wood_coverage->perceived_warmth" "wood_coverage" "perceived_warmth"
    0.45 0.10 "supported"
    (Some [
      EvidenceItem.mk "li2021_wood_use"
        "Effect of the degree of wood use on the visual psychological response of wooden indoor spaces"
        "Medium wood coverage (≈35–65%) in interiors was associated with higher ratings of naturalness, warmth, relaxation, and desire to use the space compared to low coverage."
        "beneficial"
        "Adults in controlled visual simulation"
        "Within-subjects lab experiment"
        ["Perceived warmth"; "Perceived relaxation"]
        (Some "10.1007/s00226-021-01320-7")
        (Some "moderate")
        (Some "Inverse V-shaped relationship with very high wood coverage reducing comfort.")
    ]);
  Call.mk "wood_coverage->perceived_naturalness" "wood_coverage" "perceived_naturalness"
    0.40 0.12 "supported"
    (Some [
      EvidenceItem.mk "jalilzadehazhari2019_wood_surfaces"
        "Material properties of wooden surfaces used in interiors and their influence on physiological responses"
        "Visual exposure to indoor wooden surfaces generally increased feelings of comfort and naturalness, with some evidence of reduced sympathetic activation."
        "beneficial"
        "University students in interior mock-ups"
        "Lab-based exposure study"
        ["Perceived naturalness"; "Comfort"; "Physiological arousal"]
        (Some "10.1080/17480272.2019.1575901")
        (Some "moderate")
        None
    ]);
  Call.mk "plant_density->perceived_naturalness" "plant_density" "perceived_naturalness"
    0.50 0.12 "experimentally_validated"
    (Some [
      EvidenceItem.mk "yin2020_biophilic_vr"
        "Effects of biophilic indoor environment on stress and anxiety recovery: A VR experiment"
        "VR offices with biophilic elements (plants, natural materials) produced greater reductions in stress and anxiety compared to a non-biophilic office."
        "beneficial"
        "100 adults in virtual office environments"
        "Between-subjects VR experiment"
        ["State anxiety"; "Heart rate variability"; "Skin conductance"]
        (Some "10.1016/j.envint.2019.105427")
        (Some "high")
        None;
      EvidenceItem.mk "lee2015_indoor_plants"
        "Interaction with indoor plants may reduce psychological and physiological stress"
        "Active interaction with indoor plants lowered diastolic blood pressure and sympathetic activity relative to a computer task, and increased feelings of comfort and naturalness."
        "beneficial"
        "Young adults (mean age ~25 years)"
        "Randomized crossover experiment"
        ["Heart rate variability"; "Blood pressure"; "Subjective comfort"]
        (Some "10.1186/s40101-015-0060-8")
        (Some "high")
        None
    ]);
  Call.mk "plant_density->positive_affect" "plant_density" "positive_affect"
    0.35 0.10 "supported"
    (Some [
      EvidenceItem.mk "yin2020_biophilic_vr_positive"
        "Effects of biophilic indoor environment on stress and anxiety recovery: A VR experiment"
        "Participants in biophilic conditions reported more positive mood after stress induction than those in control offices."
        "beneficial"
        "Adults in virtual offices"
        "Between-subjects VR experiment"
        ["State anxiety"; "Mood ratings"]
        (Some "10.1016/j.envint.2019.105427")
        (Some "high")
        None
    ]);
  Call.mk "spatial_clutter->cognitive_load" "spatial_clutter" "cognitive_load"
    0.30 0.10 "hypothesized" (Some []);
  Call.mk "glare_index->cognitive_load" "glare_index" "cognitive_load"
    0.35 0.10 "hypothesized" (Some []);
  Call.mk "perceived_warmth->positive_affect" "perceived_warmth" "positive_affect"
    0.25 0.08 "hypothesized" (Some []);
  Call.mk "perceived_naturalness->positive_affect" "perceived_naturalness" "positive_affect"
    0.40 0.09 "supported"
    (Some [
      EvidenceItem.mk "yin2020_biophilic_vr_mood"
        "Effects of biophilic indoor environment on stress and anxiety recovery: A VR experiment"
        "Biophilic interiors improved stress recovery and reduced anxiety, consistent with higher perceived naturalness and restorative quality."
        "beneficial"
        "Adults in virtual offices"
        "Between-subjects VR experiment"
        ["Perceived restorativeness"; "State anxiety"]
        (Some "10.1016/j.envint.2019.105427")
        (Some "high")
        None
    ]);
  Call.mk "positive_affect->state_anxiety" "positive_affect" "state_anxiety"
    (-0.50) 0.12 "supported" (Some []);
  Call.mk "cognitive_load->state_anxiety" "cognitive_load" "state_anxiety"
    0.30 0.11 "hypothesized" (Some []);
  Call.mk "cognitive_load->task_performance" "cognitive_load" "task_performance"
    (-0.35) 0.10 "supported" (Some []);
  Call.mk "state_anxiety->task_performance" "state_anxiety" "task_performance"
    (-0.30) 0.10 "supported" (Some []);
  Call.mk "perceived_naturalness->perceived_stress" "perceived_naturalness" "perceived_stress"
    (-0.40) 0.10 "supported" (Some []);
  Call.mk "positive_affect->perceived_stress" "positive_affect" "perceived_stress"
    (-0.35) 0.10 "supported" (Some [])
].

Section Routes.
Context {F : Type} `{PyFloat F}.

Definition run_call (EDGES : dict (EdgeDetail.t F)) (c : Call.t) : dict (EdgeDetail.t F) :=
  register_edge (Call.edge_id c) (Call.from_node c) (Call.to_node c)
    #(Call.mean c) #(Call.sd c) (Call.status c) (Call.evidence c) EDGES.

(** [EDGES = {}] followed by the calls, one after the other. *)
Definition EDGES : dict (EdgeDetail.t F) :=
  fold_left run_call register_edge_calls [].

(** GET /api/v1/graph/v1_demo *)
Definition get_demo_graph_of (EDGES : dict (EdgeDetail.t F)) : GraphPayload.t F :=
  let edges_brief :=
    for_append
      (fun ed =>
         GraphEdge.mk (EdgeDetail.id ed) (EdgeDetail.from_node ed)
           (EdgeDetail.to_node ed) (EdgeDetail.status ed) (EdgeDetail.param ed))
      (dict_values EDGES) in
  GraphPayload.mk NODES edges_brief.

Definition get_demo_graph : GraphPayload.t F := get_demo_graph_of EDGES.

(** GET /api/v1/edges/{edge_id}; an [EdgeDetail] instance is always truthy,
    so [not ed] holds exactly when [EDGES.get] gave [None]. *)
Definition get_edge_detail_of (EDGES : dict (EdgeDetail.t F)) (edge_id : string)
    : outcome (EdgeDetail.t F) :=
  match dict_get edge_id EDGES with
  | None => Raise (mkHTTPException 404 "Edge not found")
  | Some ed => Return ed
  end.

Definition get_edge_detail (edge_id : string) : outcome (EdgeDetail.t F) :=
  get_edge_detail_of EDGES edge_id.
End Routes.


(* ------------------------------------------------------------------ *)
(** ** POST /api/v1/predict *)
(* ------------------------------------------------------------------ *)

Section Predict.
Context {F : Type} `{PyFloat F}.
Variable request : PredictRequest.t F.

Definition w : F := PredictRequest.wood_coverage request.
Definition plants : F := PredictRequest.plant_density request.
Definition clutter : F := PredictRequest.spatial_clutter request.
Definition glare : F := PredictRequest.glare_index request.

(** Simple feature transforms *)
Definition perceived_warmth : F := #0.3 + #0.8 * w - #0.2 * glare.
Definition perceived_naturalness : F := #0.2 + #0.9 * w + #0.9 * plants - #0.1 * clutter.
Definition cognitive_load : F := #0.5 + #0.4 * clutter + #0.4 * glare - #0.2 * plants.
Definition positive_affect : F :=
  #0.3 + #0.6 * perceived_warmth + #0.5 * perceived_naturalness - #0.3 * cognitive_load.

Definition state_anxiety : F := #0.7 - #0.7 * positive_affect + #0.4 * cognitive_load.
Definition perceived_stress : F :=
  #0.6 - #0.6 * perceived_naturalness - #0.5 * positive_affect + #0.3 * cognitive_load.
Definition task_performance : F :=
  #0.5 + #0.6 * positive_affect - #0.5 * cognitive_load - #0.4 * state_anxiety.

Definition clip01 (x : F) : F := py_max #0.0 (py_min #1.0 x).

(** Model A: normalized scores with a fixed 0.15 band *)
Definition model_a_nodes : list (string * string * F) := [
  ("perceived_warmth", "Perceived Warmth", clip01 perceived_warmth);
  ("perceived_naturalness", "Perceived Naturalness", clip01 perceived_naturalness);
  ("cognitive_load", "Cognitive Load", clip01 cognitive_load);
  ("positive_affect", "Positive Affect", clip01 positive_affect);
  ("state_anxiety", "State Anxiety", clip01 state_anxiety);
  ("perceived_stress", "Perceived Stress", clip01 perceived_stress);
  ("task_performance", "Task Performance", clip01 task_performance)
].

Definition model_a_preds : list (NodePrediction.t F) :=
  for_append
    (fun '(nid, label, val) =>
       let width := #0.15 in
       NodePrediction.mk nid label val
         (py_max #0.0 (val - width)) (py_min #1.0 (val + width)))
    model_a_nodes.

(** Model B: interaction term for wood*plants *)
Definition synergy : F := #0.3 * w * plants.
Definition positive_affect_b : F := clip01 (positive_affect + synergy).
Definition state_anxiety_b : F :=
  clip01 (#0.7 - #0.7 * positive_affect_b + #0.4 * cognitive_load).
Definition task_performance_b : F :=
  clip01 (#0.5 + #0.6 * positive_affect_b - #0.5 * cognitive_load - #0.4 * state_anxiety_b).
Definition perceived_stress_b : F :=
  clip01 (#0.6 - #0.6 * perceived_naturalness - #0.5 * positive_affect_b + #0.3 * cognitive_load).

Definition model_b_nodes : list (string * string * F) := [
  ("perceived_warmth", "Perceived Warmth", clip01 perceived_warmth);
  ("perceived_naturalness", "Perceived Naturalness", clip01 perceived_naturalness);
  ("cognitive_load", "Cognitive Load", clip01 cognitive_load);
  ("positive_affect", "Positive Affect", positive_affect_b);
  ("state_anxiety", "State Anxiety", state_anxiety_b);
  ("perceived_stress", "Perceived Stress", perceived_stress_b);
  ("task_performance", "Task Performance", task_performance_b)
].

Definition model_b_preds : list (NodePrediction.t F) :=
  for_append
    (fun '(nid, label, val) =>
       let width := #0.12 in
       NodePrediction.mk nid label val
         (py_max #0.0 (val - width)) (py_min #1.0 (val + width)))
    model_b_nodes.

Definition predict : PredictResponse.t F :=
  PredictResponse.mk model_a_preds model_b_preds.
End Predict.


(* ------------------------------------------------------------------ *)
(** ** Readings of a prediction list *)
(* ------------------------------------------------------------------ *)

Definition means {F} (preds : list (NodePrediction.t F)) : list F :=
  map (@NodePrediction.mean F) preds.


(** The all-zero request, over the rationals and as doubles. *)
Definition zero_request_Q : PredictRequest.t Q := PredictRequest.mk 0%Q 0%Q 0%Q 0%Q.
Definition zero_request_B64 : PredictRequest.t B64.t :=
  PredictRequest.mk (S754_zero false) (S754_zero false) (S754_zero false) (S754_zero false).

(** Six decimal places: agreement within half a unit of the sixth decimal. *)
Definition six_places : Q := 0.0000005.

(** Tolerance for one or two correctly rounded binary64 operations on
    values of magnitude at most one. *)
Definition float_tolerance : Q := 0.000000000000001.

(* ------------------------------------------------------------------ *)
(** ** Vocabulary of the properties *)
(* ------------------------------------------------------------------ *)

Section StepFormulas.
Context {F : Type} `{PyFloat F}.

(** Steps 5, 6 and 7 as the specification writes them, as functions of the
    quantities they mention. *)
Definition step5 (positive_affect cognitive_load : F) : F :=
  #0.7 - #0.7 * positive_affect + #0.4 * cognitive_load.
Definition step7 (positive_affect cognitive_load state_anxiety : F) : F :=
  #0.5 + #0.6 * positive_affect - #0.5 * cognitive_load - #0.4 * state_anxiety.

(** [positive_affect_b] as the specification writes it. *)
Definition spec_positive_affect_b (request : PredictRequest.t F) : F :=
  clip01 (positive_affect request
          + #0.3 * PredictRequest.wood_coverage request
                 * PredictRequest.plant_density request).
End StepFormulas.


Definition in_unit (x : Q) : Prop := (0 <= x /\ x <= 1)%Q.

(** A record as the specification wants it: mean in [0,1], the interval
    around the mean, both bounds in [0,1]. *)
Definition well_formed_Q (r : NodePrediction.t Q) : Prop :=
  in_unit (NodePrediction.mean r) /\
  (NodePrediction.ci_lower r <= NodePrediction.mean r)%Q /\
  (NodePrediction.mean r <= NodePrediction.ci_upper r)%Q /\
  in_unit (NodePrediction.ci_lower r) /\
  in_unit (NodePrediction.ci_upper r).

Section StoreReadings.
Context {F : Type} `{PyFloat F}.

(** The [EdgeDetail] a call registers, field by field from its arguments. *)
Definition registered_detail (c : Call.t) : EdgeDetail.t F :=
  EdgeDetail.mk (Call.edge_id c) (Call.from_node c) (Call.to_node c) (Call.status c)
    (ParamSummary.mk #(Call.mean c) #(Call.sd c)
       (#(Call.mean c) - #1.96 * #(Call.sd c))
       (#(Call.mean c) + #1.96 * #(Call.sd c)))
    (or_empty (Call.evidence c)).

(** The brief form of an edge: the detail with its evidence list dropped. *)
Definition project (ed : EdgeDetail.t F) : GraphEdge.t F :=
  GraphEdge.mk (EdgeDetail.id ed) (EdgeDetail.from_node ed) (EdgeDetail.to_node ed)
    (EdgeDetail.status ed) (EdgeDetail.param ed).

(** The 95% normal-approximation interval of a [ParamSummary]. *)
Definition ci_invariant (ps : ParamSummary.t F) : Prop :=
  ParamSummary.ci_lower ps = ParamSummary.mean ps - #1.96 * ParamSummary.sd ps /\
  ParamSummary.ci_upper ps = ParamSummary.mean ps + #1.96 * ParamSummary.sd ps.

(** Every entry is filed under its own id. *)
Definition keyed_by_id (d : dict (EdgeDetail.t F)) : Prop :=
  Forall (fun kv => EdgeDetail.id (snd kv) = fst kv) d.

Definition registered_ids : list string := map Call.edge_id register_edge_calls.

End StoreReadings.

(** The (id, label) pairs of the mediator and outcome nodes of the store, in
    declaration order. *)
Definition mediator_outcome_nodes : list (string * string) :=
  map (fun n => (GraphNode.id n, GraphNode.label n))
    (filter (fun n => String.eqb (GraphNode.level n) "mediator"
                      || String.eqb (GraphNode.level n) "outcome")
       NODES).

Definition prediction_keys {F} (preds : list (NodePrediction.t F)) : list (string * string) :=
  map (fun r => (NodePrediction.node_id r, NodePrediction.label r)) preds.

(** *** Doubles on the integer line *)

Abbreviation fexp64 := (fexp 53 1024).
Abbreviation valid64 := (valid_binary 53 1024).

(** Number of binary digits of a mantissa. *)
Definition digits (m : positive) : Z := Zpos (digits2_pos m).

(** State of the right shift of [M] after [k] steps: the quotient, and
    round and sticky bits that are clear when nothing was shifted out. *)
Definition shifted (M k : Z) (mrs : shr_record) : Prop :=
  (0 <= k)%Z /\ shr_m mrs = (M / 2 ^ k)%Z /\
  ((M mod 2 ^ k)%Z = 0%Z -> shr_r mrs = false /\ shr_s mrs = false).

(** Weight of exponent [e] in units of the least subnormal, 2^-1074. *)
Definition U (e : Z) : Z := (2 ^ (e + 1074))%Z.

(** Every finite double lies below [huge] = 2^1024 in those units. *)
Definition huge : Z := (2 ^ 2098)%Z.

(** Magnitude of a double in units of the least subnormal; the infinities
    sit above every finite double. *)
Definition mag (x : spec_float) : Z :=
  match x with
  | S754_zero _ => 0%Z
  | S754_finite _ m e => (Zpos m * U e)%Z
  | S754_infinity _ => (2 * huge)%Z
  | S754_nan => 0%Z
  end.

Definition has_sign (sx : bool) (r : spec_float) : Prop :=
  match r with
  | S754_zero s | S754_infinity s | S754_finite s _ _ => s = sx
  | S754_nan => False
  end.

Definition is_nan (x : spec_float) : bool :=
  match x with S754_nan => true | _ => false end.

Definition is_finite (x : spec_float) : bool :=
  match x with S754_zero _ | S754_finite _ _ _ => true | _ => false end.

Definition is_zero (x : spec_float) : bool :=
  match x with S754_zero _ => true | _ => false end.

(** Position of a double other than NaN on the integer line. *)
Definition ord (x : spec_float) : Z :=
  match x with
  | S754_zero _ => 0%Z
  | S754_finite s m e => cond_Zopp s (Zpos m * U e)
  | S754_infinity s => cond_Zopp s (2 * huge)
  | S754_nan => 0%Z
  end.

Definition zero64 : B64.t := S754_zero false.
Definition one64 : B64.t := S754_finite false 4503599627370496 (-52).

(** A record as the specification wants it, with IEEE [<=] on doubles. *)
Definition well_formed_B64 (r : NodePrediction.t B64.t) : Prop :=
  B64.leb zero64 (NodePrediction.mean r) = true /\
  B64.leb (NodePrediction.mean r) one64 = true /\
  B64.leb (NodePrediction.ci_lower r) (NodePrediction.mean r) = true /\
  B64.leb (NodePrediction.mean r) (NodePrediction.ci_upper r) = true /\
  B64.leb zero64 (NodePrediction.ci_lower r) = true /\
  B64.leb (NodePrediction.ci_lower r) one64 = true /\
  B64.leb zero64 (NodePrediction.ci_upper r) = true /\
  B64.leb (NodePrediction.ci_upper r) one64 = true.

(** The four inputs are IEEE doubles (NaN and the infinities included):
    [spec_float] also has mantissa/exponent pairs that no double has. *)
Definition valid_request (request : PredictRequest.t B64.t) : Prop :=
  valid64 (PredictRequest.wood_coverage request) = true /\
  valid64 (PredictRequest.plant_density request) = true /\
  valid64 (PredictRequest.spatial_clutter request) = true /\
  valid64 (PredictRequest.glare_index request) = true.

(** *** Sample requests *)

(** A request far outside the nominal range: NaN wood coverage, infinite
    plant density, the largest double as clutter, and glare -5. *)
Definition wild_request : PredictRequest.t B64.t :=
  PredictRequest.mk S754_nan (S754_infinity false)
    (S754_finite false 9007199254740991 971)
    (S754_finite true 5629499534213120 (-50)).

(** Wood coverage 0.2 and plant density 0.2, nothing else. *)
Definition leafy_request_Q : PredictRequest.t Q := PredictRequest.mk 0.2 0.2 0 0.

(** Full wood coverage and plant density, nothing else. *)
Definition lush_request_Q : PredictRequest.t Q := PredictRequest.mk 1 1 0 0.

(* ------------------------------------------------------------------ *)
(** ** Vocabulary of the further properties *)
(* ------------------------------------------------------------------ *)

(** The store after running the calls [cs], in order, from [EDGES = {}]. *)
Definition built_by {F} `{PyFloat F} (cs : list Call.t) : dict (EdgeDetail.t F) :=
  fold_left run_call cs [].

(** The ids of [ids] not yet in [seen], each at its first occurrence. *)
Fixpoint first_seen (seen ids : list string) : list string :=
  match ids with
  | [] => []
  | i :: r =>
      if existsb (String.eqb i) seen then first_seen seen r
      else i :: first_seen (seen ++ [i])%list r
  end.

(** The last call of [cs] that registers the id [k]. *)
Definition last_call (k : string) (cs : list Call.t) : option Call.t :=
  find (fun c => String.eqb (Call.edge_id c) k) (rev cs).

Definition edge_ids {F} (g : GraphPayload.t F) : list string :=
  map (@GraphEdge.id F) (GraphPayload.edges g).

(** The (from_node, to_node) pairs of a listing. *)
Definition endpoints {F} (g : GraphPayload.t F) : list (string * string) :=
  map (fun e => (GraphEdge.from_node e, GraphEdge.to_node e)) (GraphPayload.edges g).

(** [reaches E a b]: a non-empty path of edges of [E] leads from [a] to [b]. *)
Inductive reaches (E : list (string * string)) : string -> string -> Prop :=
| reaches_edge (a b : string) : In (a, b) E -> reaches E a b
| reaches_step (a b c : string) : In (a, b) E -> reaches E b c -> reaches E a c.

(** Position of an id in a list of ids (the length of the list if absent). *)
Fixpoint index_of (x : string) (l : list string) : nat :=
  match l with
  | [] => 0
  | y :: r => if String.eqb y x then 0 else S (index_of x r)
  end.

(** No id occurs twice. *)
Fixpoint nodupb (l : list string) : bool :=
  match l with
  | [] => true
  | x :: r => negb (existsb (String.eqb x) r) && nodupb r
  end.

Definition node_rank (nid : string) : nat := index_of nid (map GraphNode.id NODES).

(** The level of the node with id [nid], if [NODES] has one. *)
Definition level_of (nid : string) : option string :=
  option_map GraphNode.level
    (find (fun n => String.eqb (GraphNode.id n) nid) NODES).

(** [request'] is at least as favourable as [request]: no less wood and
    plants, no more clutter and glare. *)
Definition favourable (request request' : PredictRequest.t Q) : Prop :=
  (PredictRequest.wood_coverage request <= PredictRequest.wood_coverage request')%Q /\
  (PredictRequest.plant_density request <= PredictRequest.plant_density request')%Q /\
  (PredictRequest.spatial_clutter request' <= PredictRequest.spatial_clutter request)%Q /\
  (PredictRequest.glare_index request' <= PredictRequest.glare_index request)%Q.

(** For which of the seven nodes, in reporting order, a higher score is the
    better one: warmth, naturalness, positive affect and task performance;
    not cognitive load, anxiety and stress. *)
Definition higher_is_better : list bool := [true; true; false; true; false; false; true].

Definition no_worse (up : bool) (x y : Q) : Prop :=
  if up then (x <= y)%Q else (y <= x)%Q.


(** Width of the reported interval. *)
Definition band (r : NodePrediction.t Q) : Q :=
  (NodePrediction.ci_upper r - NodePrediction.ci_lower r)%Q.

(** A band built with half-width [width]: never narrower than [width], never
    wider than twice that, and of full width exactly when the mean is at
    least [width] away from both 0 and 1. *)
Definition banded (width : Q) (r : NodePrediction.t Q) : Prop :=
  (width <= band r)%Q /\ (band r <= 2 * width)%Q /\
  ((band r == 2 * width)%Q <->
   (width <= NodePrediction.mean r)%Q /\ (NodePrediction.mean r <= 1 - width)%Q).


(** The store after the first two registrations. *)
Definition two_edge_store : dict (EdgeDetail.t Q) :=
  built_by (firstn 2 register_edge_calls).

(* ------------------------------------------------------------------ *)
(** ** Basic facts *)
(* ------------------------------------------------------------------ *)

Unset Implicit Arguments.

Lemma for_append_acc {A B} (f : A -> B) (xs : list A) (acc : list B) :
  fold_left (fun out x => (out ++ [f x])%list) xs acc = (acc ++ map f xs)%list.
Proof.
  revert acc; induction xs as [|x xs IH]; intros acc; simpl.
  - now rewrite app_nil_r.
  - rewrite IH, <- app_assoc. reflexivity.
Qed.

Lemma for_append_map {A B} (f : A -> B) (xs : list A) :
  for_append f xs = map f xs.
Proof. unfold for_append. now rewrite for_append_acc. Qed.

Lemma find_app_or {A} (f : A -> bool) (l1 l2 : list A) :
  find f (l1 ++ l2)%list =
  match find f l1 with Some x => Some x | None => find f l2 end.
Proof.
  induction l1 as [|a l1 IH]; simpl; [reflexivity|].
  destruct (f a); [reflexivity|exact IH].
Qed.

Lemma Qltb_spec (x y : Q) : reflect (x < y)%Q (Qltb x y).
Proof.
  unfold Qltb. destruct (x ?= y)%Q eqn:E; constructor.
  - rewrite Qlt_alt; congruence.
  - now apply Qlt_alt.
  - rewrite Qlt_alt; congruence.
Qed.

(** Case analysis on every comparison made by [max] and [min] over Q. *)
Ltac q_unfold :=
  unfold clip01, py_max, py_min; cbn [lit fadd fsub fmul flt Q_PyFloat].
Ltac q_cases :=
  repeat match goal with
         | |- context [Qltb ?a ?b] => destruct (Qltb_spec a b)
         | H : context [Qltb ?a ?b] |- _ => destruct (Qltb_spec a b)
         end.
Ltac q_solve := q_unfold; q_cases; try lra.

Lemma clip01_Q_range (x : Q) : (0 <= clip01 x /\ clip01 x <= 1)%Q.
Proof. q_solve. Qed.

Lemma clip01_Q_id (x : Q) : (0 <= x <= 1)%Q -> (clip01 x == x)%Q.
Proof. intros [? ?]. q_solve. Qed.

Lemma clip01_Q_mono (x y : Q) : (x <= y)%Q -> (clip01 x <= clip01 y)%Q.
Proof. intros ?. q_solve. Qed.

Lemma clip01_Q_ext (x y : Q) : (x == y)%Q -> (clip01 x == clip01 y)%Q.
Proof.
  intros E. apply Qle_antisym; apply clip01_Q_mono; rewrite E; apply Qle_refl.
Qed.

#[export] Instance clip01_Q_Proper : Proper (Qeq ==> Qeq) (@clip01 Q _).
Proof. exact clip01_Q_ext. Qed.

Lemma model_a_preds_map {F} `{PyFloat F} (request : PredictRequest.t F) :
  model_a_preds request =
  map (fun '(nid, label, val) =>
         NodePrediction.mk nid label val
           (py_max #0.0 (val - #0.15)) (py_min #1.0 (val + #0.15)))
      (model_a_nodes request).
Proof. unfold model_a_preds. now rewrite for_append_map. Qed.

Lemma model_b_preds_map {F} `{PyFloat F} (request : PredictRequest.t F) :
  model_b_preds request =
  map (fun '(nid, label, val) =>
         NodePrediction.mk nid label val
           (py_max #0.0 (val - #0.12)) (py_min #1.0 (val + #0.12)))
      (model_b_nodes request).
Proof. unfold model_b_preds. now rewrite for_append_map. Qed.

Lemma means_model_a {F} `{PyFloat F} (request : PredictRequest.t F) :
  means (PredictResponse.model_a (predict request)) =
  [clip01 (perceived_warmth request); clip01 (perceived_naturalness request);
   clip01 (cognitive_load request); clip01 (positive_affect request);
   clip01 (state_anxiety request); clip01 (perceived_stress request);
   clip01 (task_performance request)].
Proof. unfold predict; cbn [PredictResponse.model_a]. now rewrite model_a_preds_map. Qed.

Lemma means_model_b {F} `{PyFloat F} (request : PredictRequest.t F) :
  means (PredictResponse.model_b (predict request)) =
  [clip01 (perceived_warmth request); clip01 (perceived_naturalness request);
   clip01 (cognitive_load request); positive_affect_b request;
   state_anxiety_b request; perceived_stress_b request;
   task_performance_b request].
Proof. unfold predict; cbn [PredictResponse.model_b]. now rewrite model_b_preds_map. Qed.

(* ------------------------------------------------------------------ *)
(** ** IEEE 754 binary64: rounding, order, and the three operations *)
(* ------------------------------------------------------------------ *)

Section IEEE754.
Local Open Scope Z_scope.

(** *** Digit counts *)

Lemma digits_pos m : 1 <= digits m.
Proof. unfold digits. lia. Qed.

Lemma digits_bounds m : 2 ^ (digits m - 1) <= Zpos m < 2 ^ digits m.
Proof.
  unfold digits. induction m as [m IH|m IH|]; cbn [digits2_pos].
  - rewrite Pos2Z.inj_succ.
    replace (Z.succ (Zpos (digits2_pos m)) - 1) with (Z.succ (Zpos (digits2_pos m) - 1)) by lia.
    rewrite !Z.pow_succ_r by lia. lia.
  - rewrite Pos2Z.inj_succ.
    replace (Z.succ (Zpos (digits2_pos m)) - 1) with (Z.succ (Zpos (digits2_pos m) - 1)) by lia.
    rewrite !Z.pow_succ_r by lia. lia.
  - simpl. lia.
Qed.

Lemma digits_unique m k : 2 ^ (k - 1) <= Zpos m < 2 ^ k -> digits m = k.
Proof.
  intros [L U]. pose proof (digits_bounds m) as [L' U']. pose proof (digits_pos m).
  assert (0 < k).
  { destruct (Z_lt_le_dec 0 k); trivial.
    assert (2 ^ k <= 2 ^ 0) by (apply Z.pow_le_mono_r; lia). simpl in *. lia. }
  destruct (Z_lt_le_dec (digits m) k) as [C|C].
  - assert (2 ^ digits m <= 2 ^ (k - 1)) by (apply Z.pow_le_mono_r; lia). lia.
  - destruct (Z_lt_le_dec k (digits m)) as [C'|C']; [|lia].
    assert (2 ^ k <= 2 ^ (digits m - 1)) by (apply Z.pow_le_mono_r; lia). lia.
Qed.

Lemma digits_mono m1 m2 : (m1 <= m2)%positive -> digits m1 <= digits m2.
Proof.
  intros L. pose proof (digits_bounds m1) as [L1 U1].
  pose proof (digits_bounds m2) as [L2 U2]. pose proof (digits_pos m1).
  destruct (Z_lt_le_dec (digits m2) (digits m1)) as [C|C]; [|lia].
  assert (2 ^ digits m2 <= 2 ^ (digits m1 - 1)) by (apply Z.pow_le_mono_r; lia). lia.
Qed.

Lemma iter_xO m d : Zpos (Pos.iter xO m d) = Zpos m * 2 ^ Zpos d.
Proof.
  induction d as [|d IH] using Pos.peano_ind.
  - simpl. lia.
  - rewrite Pos.iter_succ, Pos2Z.inj_succ, Z.pow_succ_r by lia.
    rewrite Pos2Z.inj_xO, IH. lia.
Qed.

Lemma digits_shift m d : digits (Pos.iter xO m d) = digits m + Zpos d.
Proof.
  apply digits_unique. rewrite iter_xO.
  pose proof (digits_bounds m) as [L U]. pose proof (digits_pos m).
  replace (digits m + Zpos d - 1) with ((digits m - 1) + Zpos d) by lia.
  rewrite !Z.pow_add_r by lia.
  assert (0 < 2 ^ Zpos d) by (apply Z.pow_pos_nonneg; lia). nia.
Qed.

(** *** Right shifts with round and sticky bits *)

Lemma shifted_start M : shifted M 0 (shr_record_of_loc M loc_Exact).
Proof.
  unfold shifted; simpl. rewrite Z.div_1_r. repeat split; lia.
Qed.

Lemma shr_1_m mrs : 0 <= shr_m mrs -> shr_m (shr_1 mrs) = shr_m mrs / 2.
Proof.
  destruct mrs as [m r s].
  destruct m as [|[p|p|]|p]; cbn [shr_m shr_1]; intros Hm.
  - reflexivity.
  - apply Z.div_unique with 1; lia.
  - apply Z.div_unique with 0; lia.
  - reflexivity.
  - lia.
Qed.

Lemma shr_1_r mrs : 0 <= shr_m mrs -> shr_r (shr_1 mrs) = Z.odd (shr_m mrs).
Proof.
  destruct mrs as [m r s]; simpl. intros Hm.
  destruct m as [|[p|p|]|p]; simpl; try reflexivity; lia.
Qed.

Lemma shr_1_s mrs : shr_s (shr_1 mrs) = shr_r mrs || shr_s mrs.
Proof.
  destruct mrs as [m r s]; simpl.
  destruct m as [|[p|p|]|[p|p|]]; reflexivity.
Qed.

Lemma shifted_step M k mrs : 0 <= M -> shifted M k mrs -> shifted M (k + 1) (shr_1 mrs).
Proof.
  intros HM (Hk & Hm & Hx).
  assert (P : 0 < 2 ^ k) by (apply Z.pow_pos_nonneg; lia).
  assert (Hm0 : 0 <= shr_m mrs) by (rewrite Hm; apply Z.div_pos; lia).
  assert (E : 2 ^ (k + 1) = 2 ^ k * 2) by (rewrite Z.pow_add_r by lia; reflexivity).
  split; [lia|split].
  - rewrite shr_1_m, Hm, E by trivial. rewrite Z.div_div by lia. reflexivity.
  - intros Hz. rewrite E in Hz.
    assert (Hq : M = 2 ^ k * 2 * (M / (2 ^ k * 2))).
    { pose proof (Z.div_mod M (2 ^ k * 2)). lia. }
    set (q := M / (2 ^ k * 2)) in *.
    assert (Hk0 : M mod 2 ^ k = 0).
    { rewrite Hq. replace (2 ^ k * 2 * q) with ((2 * q) * 2 ^ k) by ring.
      apply Z.mod_mul. lia. }
    destruct (Hx Hk0) as [Hr Hs].
    rewrite shr_1_r, shr_1_s, Hr, Hs by trivial. split; [|reflexivity].
    rewrite Hm. replace (M / 2 ^ k) with (2 * q).
    + rewrite Z.odd_mul. reflexivity.
    + rewrite Hq at 1. replace (2 ^ k * 2 * q) with ((2 * q) * 2 ^ k) by ring.
      rewrite Z.div_mul by lia. reflexivity.
Qed.

Lemma shifted_iter M p : forall k mrs,
  0 <= M -> shifted M k mrs -> shifted M (k + Zpos p) (iter_pos shr_1 p mrs).
Proof.
  induction p as [p IH|p IH|]; intros k mrs HM H; cbn [iter_pos].
  - replace (k + Zpos p~1) with ((k + 1 + Zpos p) + Zpos p) by lia.
    apply IH; trivial. apply IH; trivial. now apply shifted_step.
  - replace (k + Zpos p~0) with ((k + Zpos p) + Zpos p) by lia.
    apply IH; trivial. apply IH; trivial.
  - now apply shifted_step.
Qed.

(** Right shift of an exact record by [n]. *)
Lemma shr_exact M e n :
  0 <= M -> 0 <= n ->
  let '(mrs, e') := shr (shr_record_of_loc M loc_Exact) e n in
  e' = e + n /\ shifted M n mrs.
Proof.
  intros HM Hn. unfold shr. destruct n as [|p|p]; try lia.
  - split; [lia|apply shifted_start].
  - split; [reflexivity|].
    apply (shifted_iter M p 0 _ HM (shifted_start M)).
Qed.

Lemma round_nearest_even_bounds mrs M n :
  shifted M n mrs ->
  let m'' := round_nearest_even (shr_m mrs) (loc_of_shr_record mrs) in
  M / 2 ^ n <= m'' <= M / 2 ^ n + 1 /\ (M mod 2 ^ n = 0 -> m'' = M / 2 ^ n).
Proof.
  intros (Hn & Hm & Hx). destruct mrs as [m r s]; simpl in *. subst m.
  split.
  - destruct r, s; simpl; try lia. destruct (Z.even _); lia.
  - intros Hz. destruct (Hx Hz) as [-> ->]. reflexivity.
Qed.

(** *** Exponents, weights, and the rounding step *)

Lemma fexp64_eq e : fexp64 e = Z.max (e - 53) (-1074).
Proof. reflexivity. Qed.

Lemma U_pos e : -1074 <= e -> 0 < U e.
Proof. intros. apply Z.pow_pos_nonneg; lia. Qed.

Lemma U_add e k : -1074 <= e -> 0 <= k -> U (e + k) = 2 ^ k * U e.
Proof.
  intros. unfold U. replace (e + k + 1074) with (k + (e + 1074)) by lia.
  apply Z.pow_add_r; lia.
Qed.

Lemma U_split a b : -1074 <= a <= b -> U b = 2 ^ (b - a) * U a.
Proof.
  intros. unfold U. rewrite <- Z.pow_add_r by lia. f_equal. lia.
Qed.

Lemma U_mono e1 e2 : -1074 <= e1 <= e2 -> U e1 <= U e2.
Proof. intros. apply Z.pow_le_mono_r; lia. Qed.

Lemma U_972 e : 972 <= e -> 2 ^ 52 * U e >= huge.
Proof.
  intros. unfold huge. replace 2098 with (52 + (972 + 1074)) by lia.
  rewrite Z.pow_add_r by lia.
  assert (2 ^ (972 + 1074) <= U e) by (apply Z.pow_le_mono_r; lia).
  assert (0 < 2 ^ 52) by (apply Z.pow_pos_nonneg; lia). nia.
Qed.

Lemma div_pow_bounds (mz : positive) (n : Z) :
  0 <= n ->
  2 ^ (digits mz - 1 - n) <= Zpos mz / 2 ^ n \/ digits mz - 1 < n.
Proof.
  intros Hn. destruct (Z_lt_le_dec (digits mz - 1) n) as [C|C]; [now right|left].
  pose proof (digits_bounds mz) as [L _].
  apply Z.div_le_lower_bound; [apply Z.pow_pos_nonneg; lia|].
  rewrite <- Z.pow_add_r by lia.
  replace (n + (digits mz - 1 - n)) with (digits mz - 1) by lia. exact L.
Qed.

Lemma div_pow_upper (mz : positive) (n k : Z) :
  0 <= n -> 0 <= k -> digits mz <= k + n -> Zpos mz / 2 ^ n < 2 ^ k.
Proof.
  intros Hn Hk Hd. pose proof (digits_bounds mz) as [_ Up].
  apply Z.div_lt_upper_bound; [apply Z.pow_pos_nonneg; lia|].
  rewrite <- Z.pow_add_r by lia.
  assert (2 ^ digits mz <= 2 ^ (n + k)) by (apply Z.pow_le_mono_r; lia). lia.
Qed.

Lemma shr_nonpos mrs e n : n <= 0 -> shr mrs e n = (mrs, e).
Proof. intros. unfold shr. destruct n; trivial; lia. Qed.

Lemma digits_le_53 p : Zpos p < 2 ^ 53 -> digits p <= 53.
Proof.
  intros Hp. pose proof (digits_bounds p) as [L _].
  destruct (Z_lt_le_dec 53 (digits p)) as [C|C]; [|lia].
  assert (2 ^ 53 <= 2 ^ (digits p - 1)) by (apply Z.pow_le_mono_r; lia). lia.
Qed.

Lemma finish_canonical sx p e :
  fexp64 (digits p + e) = e ->
  let r := if Z.leb e (1024 - 53) then S754_finite sx p e else S754_infinity sx in
  (r = S754_finite sx p e /\ e <= 971 /\ valid64 (S754_finite sx p e) = true) \/
  (r = S754_infinity sx /\ 972 <= e).
Proof.
  intros C r. subst r. destruct (Z.leb e (1024 - 53)) eqn:Le.
  - apply Z.leb_le in Le. left. split; [reflexivity|]. split; [lia|].
    cbn [valid_binary]. unfold bounded, canonical_mantissa.
    fold (digits p). rewrite C, Z.eqb_refl. apply Z.leb_le. lia.
  - apply Z.leb_gt in Le. right. split; [reflexivity|lia].
Qed.

(** The outcome of rounding the exact record [(mz, e)] when no left shift is
    due. *)
Lemma bra_spec sx mz e :
  let e' := fexp64 (digits mz + e) in
  let n := e' - e in
  0 <= n ->
  let r := binary_round_aux 53 1024 sx (Zpos mz) e loc_Exact in
  exists m'',
    Zpos mz / 2 ^ n <= m'' <= Zpos mz / 2 ^ n + 1 /\
    (Zpos mz mod 2 ^ n = 0 -> m'' = Zpos mz / 2 ^ n) /\
    valid64 r = true /\
    ((r = S754_zero sx /\ m'' = 0) \/
     (exists mr er, r = S754_finite sx mr er /\ Zpos mr * U er = m'' * U e') \/
     (r = S754_infinity sx /\ huge <= m'' * U e' /\ 971 <= e')).
Proof.
  intros e' n Hn r.
  assert (He' : -1074 <= e') by (unfold e'; rewrite fexp64_eq; lia).
  subst r. unfold binary_round_aux, shr_fexp.
  change (Zdigits2 (Zpos mz)) with (digits mz). fold e'. fold n.
  pose proof (shr_exact (Zpos mz) e n ltac:(lia) Hn) as S.
  destruct (shr (shr_record_of_loc (Zpos mz) loc_Exact) e n) as [mrs' e1].
  destruct S as [He1 Sh].
  replace e1 with e' in * by (unfold n in He1; lia). clear He1.
  pose proof (round_nearest_even_bounds mrs' (Zpos mz) n Sh) as [B X].
  cbv zeta in B, X.
  remember (round_nearest_even (shr_m mrs') (loc_of_shr_record mrs')) as m'' eqn:Em.
  clear Em Sh mrs'.
  exists m''. split; [exact B|]. split; [exact X|].
  assert (Hm0 : 0 <= Zpos mz / 2 ^ n) by (apply Z.div_pos; [lia|apply Z.pow_pos_nonneg; lia]).
  destruct m'' as [|p|p]; [| |lia].
  - (* rounded to zero *)
    assert (N2 : fexp64 (Zdigits2 0 + e') - e' <= 0) by (rewrite fexp64_eq; simpl; lia).
    rewrite (shr_nonpos _ _ _ N2). simpl. auto.
  - destruct (Z_lt_le_dec (digits mz + e - 53) (-1074)) as [Sub|Nor].
    + (* subnormal range *)
      assert (Ee : e' = -1074) by (unfold e'; rewrite fexp64_eq; lia).
      assert (Hp : Zpos p <= 2 ^ 52).
      { assert (Zpos mz / 2 ^ n < 2 ^ 52) by (apply div_pow_upper; lia). lia. }
      assert (Dp : digits p <= 53) by (apply digits_le_53; simpl in *; lia).
      change (Zdigits2 (Zpos p)) with (digits p).
      assert (C : fexp64 (digits p + e') = e') by (rewrite fexp64_eq; lia).
      assert (N2 : fexp64 (digits p + e') - e' <= 0) by lia.
      rewrite (shr_nonpos _ _ _ N2). cbn [shr_record_of_loc shr_m].
      destruct (finish_canonical sx p e' C) as [(-> & Le & V)|[-> Ge]].
      * split; [exact V|]. right; left. exists p, e'. split; reflexivity.
      * lia.
    + (* normal range *)
      assert (Ee : e' = digits mz + e - 53) by (unfold e'; rewrite fexp64_eq; lia).
      assert (En : n = digits mz - 53) by (unfold n; lia).
      assert (Lo : 2 ^ 52 <= Zpos mz / 2 ^ n).
      { destruct (div_pow_bounds mz n Hn) as [L|L]; [|lia].
        replace (digits mz - 1 - n) with 52 in L by lia. exact L. }
      assert (Hi : Zpos mz / 2 ^ n < 2 ^ 53) by (apply div_pow_upper; lia).
      destruct (Z_lt_le_dec (Zpos p) (2 ^ 53)) as [Lt|Ge].
      * assert (Dp : digits p = 53) by (apply digits_unique; simpl in *; lia).
        change (Zdigits2 (Zpos p)) with (digits p).
        assert (C : fexp64 (digits p + e') = e') by (rewrite fexp64_eq; lia).
        assert (N2 : fexp64 (digits p + e') - e' <= 0) by lia.
        rewrite (shr_nonpos _ _ _ N2). cbn [shr_record_of_loc shr_m].
        destruct (finish_canonical sx p e' C) as [(-> & Le & V)|[-> Ge]].
        -- split; [exact V|]. right; left. exists p, e'. split; reflexivity.
        -- split; [reflexivity|]. right; right. split; [reflexivity|].
           split; [|lia].
           pose proof (U_972 e' Ge). pose proof (U_pos e' He'). nia.
      * assert (Ep : p = 9007199254740992%positive) by (simpl in *; lia).
        subst p.
        change (Zdigits2 (Zpos 9007199254740992)) with 54.
        assert (N2 : fexp64 (54 + e') - e' = 1) by (rewrite fexp64_eq; lia).
        rewrite N2. cbn [shr shr_record_of_loc iter_pos shr_1 shr_m fst snd].
        assert (C : fexp64 (digits 4503599627370496 + (e' + 1)) = e' + 1).
        { change (digits 4503599627370496) with 53. rewrite fexp64_eq. lia. }
        destruct (finish_canonical sx 4503599627370496 (e' + 1) C) as [(-> & Le & V)|[-> Ge']].
        -- split; [exact V|]. right; left.
           exists 4503599627370496%positive, (e' + 1). split; [reflexivity|].
           rewrite (U_add e' 1) by lia. change (2 ^ 1) with 2. lia.
        -- split; [reflexivity|]. right; right. split; [reflexivity|].
           pose proof (U_972 (e' + 1) Ge') as Hh.
           rewrite (U_add e' 1) in Hh by lia. change (2 ^ 1) with 2 in Hh.
           change (2 ^ 52) with 4503599627370496 in Hh. lia.
Qed.

(** *** Alignment and canonical doubles *)

Lemma shl_align_spec mx ex ex' :
  let '(mz, ez) := shl_align mx ex ex' in
  ez = Z.min ex ex' /\ Zpos mz = Zpos mx * 2 ^ (ex - ez) /\
  digits mz = digits mx + (ex - ez).
Proof.
  unfold shl_align. destruct (ex' - ex) as [|d|d] eqn:E.
  - replace (Z.min ex ex') with ex by lia. rewrite Z.sub_diag. simpl. lia.
  - replace (Z.min ex ex') with ex by lia. rewrite Z.sub_diag. simpl. lia.
  - replace (Z.min ex ex') with ex' by lia.
    replace (ex - ex') with (Zpos d) by lia.
    split; [reflexivity|]. split; [apply iter_xO|apply digits_shift].
Qed.

(** Canonical doubles: at most 53 digits, exactly 53 above the least exponent. *)
Lemma bounded_facts m e :
  bounded 53 1024 m e = true ->
  -1074 <= e <= 971 /\ digits m <= 53 /\ (-1074 < e -> digits m = 53).
Proof.
  unfold bounded, canonical_mantissa. fold (digits m). rewrite fexp64_eq.
  intros H. apply andb_true_iff in H as [C B].
  apply Z.eqb_eq in C. apply Z.leb_le in B. lia.
Qed.

Lemma bounded_mag m e :
  bounded 53 1024 m e = true -> 0 < Zpos m * U e < huge.
Proof.
  intros B. apply bounded_facts in B as (He & Hd & _).
  pose proof (U_pos e ltac:(lia)). split; [lia|].
  assert (Zpos m < 2 ^ 53).
  { pose proof (digits_bounds m) as [_ Up].
    assert (2 ^ digits m <= 2 ^ 53) by (apply Z.pow_le_mono_r; lia). lia. }
  assert (U e <= U 971) by (apply U_mono; lia).
  assert (2 ^ 53 * U 971 = huge).
  { unfold U, huge. rewrite <- Z.pow_add_r by lia. reflexivity. }
  nia.
Qed.

(** Below a higher canonical exponent lies every canonical mantissa. *)
Lemma below_binade m e e' :
  bounded 53 1024 m e = true -> e < e' -> Zpos m * U e < 2 ^ 52 * U e'.
Proof.
  intros B L. apply bounded_facts in B as (He & Hd & _).
  assert (Zpos m < 2 ^ 53).
  { pose proof (digits_bounds m) as [_ Up].
    assert (2 ^ digits m <= 2 ^ 53) by (apply Z.pow_le_mono_r; lia). lia. }
  pose proof (U_pos e ltac:(lia)).
  assert (U (e + 1) <= U e') by (apply U_mono; lia).
  rewrite (U_add e 1) in * by lia. change (2 ^ 1) with 2 in *.
  change (2 ^ 53) with (2 * 2 ^ 52) in *.
  assert (0 < 2 ^ 52) by (apply Z.pow_pos_nonneg; lia). nia.
Qed.

Lemma round_up_le mz kk n m'' :
  0 <= n -> 0 < mz -> mz <= kk * 2 ^ n ->
  m'' <= mz / 2 ^ n + 1 -> (mz mod 2 ^ n = 0 -> m'' = mz / 2 ^ n) ->
  m'' <= kk.
Proof.
  intros Hn Hm L B X.
  assert (P : 0 < 2 ^ n) by (apply Z.pow_pos_nonneg; lia).
  pose proof (Z.div_mod mz (2 ^ n) ltac:(lia)) as DM.
  pose proof (Z.mod_pos_bound mz (2 ^ n) P) as MB.
  destruct (Z.eq_dec (mz mod 2 ^ n) 0) as [Z0|NZ].
  - rewrite (X Z0). rewrite Z0 in DM. nia.
  - assert (mz / 2 ^ n < kk) by nia. lia.
Qed.

Lemma round_down_ge mz kk n :
  0 <= n -> kk * 2 ^ n <= mz -> kk <= mz / 2 ^ n.
Proof.
  intros Hn L. assert (P : 0 < 2 ^ n) by (apply Z.pow_pos_nonneg; lia).
  apply Z.div_le_lower_bound; lia.
Qed.

(** Rounding [mx * 2^ex]: the result is a valid double of the requested
    sign, and it lies on the same side of every double as the exact value. *)
Lemma binary_round_spec sx mx ex :
  -1074 <= ex ->
  let r := binary_round 53 1024 sx mx ex in
  valid64 r = true /\ has_sign sx r /\
  forall m' e', bounded 53 1024 m' e' = true ->
    (Zpos mx * U ex <= Zpos m' * U e' -> mag r <= Zpos m' * U e') /\
    (Zpos m' * U e' <= Zpos mx * U ex -> Zpos m' * U e' <= mag r).
Proof.
  intros Hex r. subst r. unfold binary_round.
  pose proof (shl_align_spec mx ex (fexp64 (digits mx + ex))) as A.
  change (Zpos (digits2_pos mx)) with (digits mx).
  destruct (shl_align mx ex (fexp64 (digits mx + ex))) as [mz ez].
  destruct A as (Ez & Mz & Dz).
  assert (Hez : -1074 <= ez) by (rewrite Ez, fexp64_eq; lia).
  assert (Hd : digits mz + ez = digits mx + ex) by lia.
  pose proof (bra_spec sx mz ez) as S. cbv zeta in S.
  rewrite Hd in S.
  set (e1 := fexp64 (digits mx + ex)) in *.
  assert (Hn : 0 <= e1 - ez) by lia.
  specialize (S Hn). destruct S as (m'' & B & X & V & Cases).
  set (n := e1 - ez) in *.
  assert (He1 : -1074 <= e1) by (unfold e1; rewrite fexp64_eq; lia).
  assert (Val : Zpos mz * U ez = Zpos mx * U ex).
  { rewrite Mz, (U_split ez ex) by lia. ring. }
  assert (Ue : U e1 = 2 ^ n * U ez).
  { unfold n. apply U_split. lia. }
  assert (P : 0 < 2 ^ n) by (apply Z.pow_pos_nonneg; lia).
  pose proof (U_pos ez Hez) as Pz.
  split; [exact V|]. split.
  { destruct Cases as [[-> _]|[(mr & er & -> & _)|(-> & _)]]; reflexivity. }
  intros m' e' Bd. rewrite <- Val.
  pose proof (bounded_mag m' e' Bd) as [Mpos Mhuge].
  pose proof (bounded_facts m' e' Bd) as (He' & Hd' & _).
  assert (Hm0 : 0 <= Zpos mz / 2 ^ n) by (apply Z.div_pos; lia).
  (* the double either sits on the grid of the target exponent or below its binade *)
  destruct (Z_lt_le_dec e' e1) as [Below|OnGrid].
  - assert (Nor : e1 = digits mz + ez - 53) by (unfold e1 in *; rewrite fexp64_eq in *; lia).
    assert (Lo : 2 ^ 52 <= Zpos mz / 2 ^ n).
    { destruct (div_pow_bounds mz n Hn) as [L|L]; [|unfold n in L; lia].
      replace (digits mz - 1 - n) with 52 in L by (unfold n; lia). exact L. }
    pose proof (below_binade m' e' e1 Bd Below) as BB.
    assert (2 ^ 52 * U e1 <= Zpos mz * U ez).
    { rewrite Ue. pose proof (Z.div_mod (Zpos mz) (2 ^ n) ltac:(lia)).
      pose proof (Z.mod_pos_bound (Zpos mz) (2 ^ n) P). nia. }
    split; [lia|]. intros _.
    destruct Cases as [[-> E0]|[(mr & er & -> & Em)|(-> & Hh & _)]]; cbn [mag].
    + lia.
    + rewrite Em. nia.
    + lia.
  - set (kk := Zpos m' * 2 ^ (e' - e1)).
    assert (Ek : Zpos m' * U e' = kk * U e1).
    { unfold kk. rewrite (U_split e1 e') by lia. ring. }
    rewrite Ek, Ue. split; intros L.
    + assert (Lk : Zpos mz <= kk * 2 ^ n) by nia.
      assert (m'' <= kk) by (apply (round_up_le (Zpos mz) kk n m''); lia).
      destruct Cases as [[-> E0]|[(mr & er & -> & Em)|(-> & Hh & _)]]; cbn [mag].
      * nia.
      * rewrite Em, Ue. nia.
      * rewrite Ue in Hh. rewrite Ek, Ue in Mhuge. nia.
    + assert (Lk : kk * 2 ^ n <= Zpos mz) by nia.
      assert (kk <= m'') by (pose proof (round_down_ge (Zpos mz) kk n Hn Lk); lia).
      destruct Cases as [[-> E0]|[(mr & er & -> & Em)|(-> & Hh & _)]]; cbn [mag].
      * nia.
      * rewrite Em, Ue. nia.
      * rewrite Ek, Ue in Mhuge. lia.
Qed.

(** *** The order of doubles *)

Lemma huge_pos : 0 < huge.
Proof. unfold huge. apply Z.pow_pos_nonneg; lia. Qed.

Lemma ord_mag sx r : has_sign sx r -> ord r = cond_Zopp sx (mag r).
Proof.
  destruct r as [s|s| |s m e]; simpl; intros H; subst; try reflexivity.
  - destruct sx; reflexivity.
  - contradiction.
Qed.

Lemma ord_finite_bound x :
  valid64 x = true -> is_finite x = true -> - huge < ord x < huge.
Proof.
  destruct x as [s|s| |s m e]; cbn [ord valid_binary is_finite]; intros V F;
    try discriminate.
  - pose proof huge_pos. lia.
  - pose proof (bounded_mag m e V). destruct s; cbn [cond_Zopp]; lia.
Qed.

Lemma ord_bound x : valid64 x = true -> - (2 * huge) <= ord x <= 2 * huge.
Proof.
  pose proof huge_pos.
  destruct x as [s|s| |s m e]; cbn [ord valid_binary]; intros V; try lia.
  - destruct s; cbn [cond_Zopp]; lia.
  - pose proof (bounded_mag m e V). destruct s; cbn [cond_Zopp]; lia.
Qed.

Lemma normal_lower m e :
  bounded 53 1024 m e = true -> -1074 < e -> 2 ^ 52 <= Zpos m.
Proof.
  intros B L. apply bounded_facts in B as (_ & _ & D). specialize (D L).
  pose proof (digits_bounds m) as [Lo _]. rewrite D in Lo. exact Lo.
Qed.

Lemma canonical_lt m1 e1 m2 e2 :
  bounded 53 1024 m1 e1 = true -> bounded 53 1024 m2 e2 = true ->
  e1 < e2 -> Zpos m1 * U e1 < Zpos m2 * U e2.
Proof.
  intros B1 B2 L. pose proof (below_binade m1 e1 e2 B1 L).
  pose proof (bounded_facts m1 e1 B1) as (He1 & _).
  pose proof (normal_lower m2 e2 B2 ltac:(lia)).
  pose proof (U_pos e2 ltac:(lia)). nia.
Qed.

Lemma compare_mag m1 e1 m2 e2 :
  bounded 53 1024 m1 e1 = true -> bounded 53 1024 m2 e2 = true ->
  match Z.compare e1 e2 with
  | Lt => Lt
  | Gt => Gt
  | Eq => Pos.compare_cont Eq m1 m2
  end = (Zpos m1 * U e1 ?= Zpos m2 * U e2).
Proof.
  intros B1 B2. destruct (Z.compare_spec e1 e2) as [E|L|G].
  - subst e2. pose proof (bounded_facts m1 e1 B1) as (He1 & _).
    pose proof (U_pos e1 ltac:(lia)) as P.
    change (Pos.compare_cont Eq m1 m2) with (Zpos m1 ?= Zpos m2).
    destruct (Z.compare_spec (Zpos m1) (Zpos m2)) as [E|L|G]; symmetry.
    + apply Z.compare_eq_iff. rewrite E. reflexivity.
    + apply Z.compare_lt_iff. nia.
    + apply Z.compare_gt_iff. nia.
  - symmetry. apply Z.compare_lt_iff. now apply canonical_lt.
  - symmetry. apply Z.compare_gt_iff. now apply canonical_lt.
Qed.

(** On valid doubles other than NaN, [SFcompare] is the order of [ord]. *)
Lemma compare_ord x y :
  valid64 x = true -> valid64 y = true -> is_nan x = false -> is_nan y = false ->
  SFcompare x y = Some (ord x ?= ord y).
Proof.
  pose proof huge_pos as HP.
  assert (Side : forall s (c1 c2 : comparison) (a b : Z),
             (s = true -> (a ?= b) = c1) -> (s = false -> (a ?= b) = c2) ->
             (if s then c1 else c2) = (a ?= b)).
  { intros [|] c1 c2 a b H1 H2; symmetry; auto. }
  destruct x as [sx|sx| |sx mx ex], y as [sy|sy| |sy my ey];
    cbn [valid_binary]; intros Vx Vy Nx Ny; try discriminate;
    cbn [SFcompare ord]; f_equal;
    try (pose proof (bounded_mag mx ex Vx)); try (pose proof (bounded_mag my ey Vy)).
  - apply Side; intros ->; cbn [cond_Zopp];
      [apply Z.compare_gt_iff|apply Z.compare_lt_iff]; lia.
  - apply Side; intros ->; cbn [cond_Zopp];
      [apply Z.compare_gt_iff|apply Z.compare_lt_iff]; lia.
  - apply Side; intros ->; cbn [cond_Zopp];
      [apply Z.compare_lt_iff|apply Z.compare_gt_iff]; lia.
  - destruct sx, sy; cbn [cond_Zopp]; symmetry;
      first [apply Z.compare_eq_iff; lia|apply Z.compare_lt_iff; lia|apply Z.compare_gt_iff; lia].
  - apply Side; intros ->; destruct sy; cbn [cond_Zopp];
      first [apply Z.compare_lt_iff; lia|apply Z.compare_gt_iff; lia].
  - apply Side; intros ->; cbn [cond_Zopp];
      [apply Z.compare_lt_iff|apply Z.compare_gt_iff]; lia.
  - apply Side; intros ->; destruct sx; cbn [cond_Zopp];
      first [apply Z.compare_lt_iff; lia|apply Z.compare_gt_iff; lia].
  - destruct sx, sy; cbn [cond_Zopp].
    + rewrite Z.compare_opp.
      rewrite <- (compare_mag my ey mx ex Vy Vx).
      rewrite (Z.compare_antisym ey ex).
      destruct (ey ?= ex); simpl; try reflexivity.
      change (Pos.compare_cont Eq mx my) with (Pos.compare mx my).
      change (Pos.compare_cont Eq my mx) with (Pos.compare my mx).
      rewrite (Pos.compare_antisym mx my). reflexivity.
    + symmetry. apply Z.compare_lt_iff. lia.
    + symmetry. apply Z.compare_gt_iff. lia.
    + apply compare_mag; assumption.
Qed.

Lemma ltb_ord x y :
  valid64 x = true -> valid64 y = true -> is_nan x = false -> is_nan y = false ->
  SFltb x y = true <-> ord x < ord y.
Proof.
  intros Vx Vy Nx Ny. unfold SFltb. rewrite (compare_ord x y Vx Vy Nx Ny).
  destruct (Z.compare_spec (ord x) (ord y)); split; intros;
    try discriminate; try lia; try reflexivity.
Qed.

Lemma leb_ord x y :
  valid64 x = true -> valid64 y = true -> is_nan x = false -> is_nan y = false ->
  SFleb x y = true <-> ord x <= ord y.
Proof.
  intros Vx Vy Nx Ny. unfold SFleb. rewrite (compare_ord x y Vx Vy Nx Ny).
  destruct (Z.compare_spec (ord x) (ord y)); split; intros;
    try discriminate; try lia; try reflexivity.
Qed.

Lemma ltb_nan_l y : SFltb S754_nan y = false.
Proof. reflexivity. Qed.

Lemma ltb_nan_r x : SFltb x S754_nan = false.
Proof. destruct x; reflexivity. Qed.

(** *** Addition and subtraction *)

Lemma has_sign_not_nan sx r : has_sign sx r -> is_nan r = false.
Proof. destruct r; simpl; trivial. contradiction. Qed.

Lemma mag_nonneg r : valid64 r = true -> 0 <= mag r.
Proof.
  pose proof huge_pos.
  destruct r as [s|s| |s m e]; cbn [mag valid_binary]; intros V; try lia.
  pose proof (bounded_mag m e V). lia.
Qed.

(** Rounding the exact integer [M] (in units of [2^ez]) keeps it on the same
    side of every finite valid double. *)
Lemma normalize_spec M ez :
  -1074 <= ez ->
  let r := binary_normalize 53 1024 M ez false in
  valid64 r = true /\ is_nan r = false /\
  (0 <= M -> 0 <= ord r) /\ (M <= 0 -> ord r <= 0) /\
  forall x, valid64 x = true -> is_finite x = true ->
    (M * U ez <= ord x -> ord r <= ord x) /\
    (ord x <= M * U ez -> ord x <= ord r).
Proof.
  intros Hez r. subst r. pose proof (U_pos ez Hez) as PU.
  destruct M as [|p|p]; cbn [binary_normalize].
  - repeat split; cbn [ord]; intros; lia.
  - pose proof (binary_round_spec false p ez Hez) as (V & S & Mono).
    set (r := binary_round 53 1024 false p ez) in *.
    pose proof (ord_mag false r S) as Eo. cbn [cond_Zopp] in Eo.
    pose proof (mag_nonneg r V) as Mn.
    split; [exact V|]. split; [exact (has_sign_not_nan _ _ S)|].
    split; [lia|]. split; [lia|].
    intros x Vx Fx. destruct x as [s|s| |s m e]; try discriminate; cbn [ord].
    + split; intros; lia.
    + cbn [valid_binary] in Vx. pose proof (bounded_mag m e Vx).
      destruct s; cbn [cond_Zopp].
      * split; intros; lia.
      * rewrite Eo. apply Mono. exact Vx.
  - pose proof (binary_round_spec true p ez Hez) as (V & S & Mono).
    set (r := binary_round 53 1024 true p ez) in *.
    pose proof (ord_mag true r S) as Eo. cbn [cond_Zopp] in Eo.
    pose proof (mag_nonneg r V) as Mn.
    split; [exact V|]. split; [exact (has_sign_not_nan _ _ S)|].
    split; [lia|]. split; [lia|].
    intros x Vx Fx. destruct x as [s|s| |s m e]; try discriminate; cbn [ord].
    + split; intros; lia.
    + cbn [valid_binary] in Vx. pose proof (bounded_mag m e Vx).
      destruct (Mono m e Vx) as [M1 M2].
      destruct s; cbn [cond_Zopp].
      * rewrite Eo. split; intros; lia.
      * split; intros; lia.
Qed.

Lemma aligned_value mx ex ez :
  -1074 <= ez <= ex ->
  Zpos (fst (shl_align mx ex ez)) * U ez = Zpos mx * U ex.
Proof.
  intros H. pose proof (shl_align_spec mx ex ez) as A.
  destruct (shl_align mx ex ez) as [mz ez']. destruct A as (E & Mz & _).
  cbn [fst]. rewrite Mz. replace ez' with ez by lia.
  rewrite (U_split ez ex) by lia. ring.
Qed.

Lemma cond_Zopp_mul s a b : cond_Zopp s a * b = cond_Zopp s (a * b).
Proof. destruct s; simpl; ring. Qed.

Lemma add_finite_value sx mx ex sy my ey :
  bounded 53 1024 mx ex = true -> bounded 53 1024 my ey = true ->
  let ez := Z.min ex ey in
  (cond_Zopp sx (Zpos (fst (shl_align mx ex ez)))
   + cond_Zopp sy (Zpos (fst (shl_align my ey ez)))) * U ez
  = ord (S754_finite sx mx ex) + ord (S754_finite sy my ey) /\ -1074 <= ez.
Proof.
  intros Bx By ez.
  pose proof (bounded_facts mx ex Bx) as (Hx & _).
  pose proof (bounded_facts my ey By) as (Hy & _).
  assert (Hez : -1074 <= ez) by (unfold ez; lia). split; [|exact Hez].
  rewrite Z.mul_add_distr_r, !cond_Zopp_mul.
  rewrite !aligned_value by (unfold ez; lia). reflexivity.
Qed.

Lemma sub_finite_value sx mx ex sy my ey :
  bounded 53 1024 mx ex = true -> bounded 53 1024 my ey = true ->
  let ez := Z.min ex ey in
  (cond_Zopp sx (Zpos (fst (shl_align mx ex ez)))
   - cond_Zopp sy (Zpos (fst (shl_align my ey ez)))) * U ez
  = ord (S754_finite sx mx ex) - ord (S754_finite sy my ey) /\ -1074 <= ez.
Proof.
  intros Bx By ez.
  pose proof (bounded_facts mx ex Bx) as (Hx & _).
  pose proof (bounded_facts my ey By) as (Hy & _).
  assert (Hez : -1074 <= ez) by (unfold ez; lia). split; [|exact Hez].
  rewrite Z.mul_sub_distr_r, !cond_Zopp_mul.
  rewrite !aligned_value by (unfold ez; lia). reflexivity.
Qed.

(** Addition: valid, and unless it is NaN it moves [x] in the direction of
    the sign of [y]. *)
Lemma add_spec x y :
  valid64 x = true -> valid64 y = true ->
  let r := SFadd 53 1024 x y in
  valid64 r = true /\
  (is_finite x = true -> is_finite y = true -> is_nan r = false) /\
  (is_nan r = false ->
     is_nan x = false /\ is_nan y = false /\
     (0 <= ord y -> ord x <= ord r) /\ (ord y <= 0 -> ord r <= ord x)).
Proof.
  intros Vx Vy r. subst r. pose proof huge_pos as HP.
  pose proof (ord_bound x Vx) as Bx. pose proof (ord_bound y Vy) as By.
  destruct x as [sx|sx| |sx mx ex], y as [sy|sy| |sy my ey];
    try (cbn [SFadd]; repeat split; trivial; cbn [ord] in *; discriminate || lia).
  - (* zero, zero *)
    destruct sx, sy; cbn; repeat split; trivial; lia.
  - (* infinity, infinity *)
    destruct sx, sy; cbn; repeat split; trivial; try discriminate; lia.
  - (* finite, infinity *)
    destruct sy; cbn [SFadd ord cond_Zopp valid_binary] in *; repeat split; trivial; lia.
  - (* finite, finite *)
    cbn [valid_binary] in Vx, Vy.
    pose proof (add_finite_value sx mx ex sy my ey Vx Vy) as [Val Hez].
    cbv zeta in Val. cbn [SFadd].
    set (ez := Z.min ex ey) in *.
    set (M := cond_Zopp sx (Zpos (fst (shl_align mx ex ez)))
              + cond_Zopp sy (Zpos (fst (shl_align my ey ez)))) in *.
    pose proof (normalize_spec M ez Hez) as (V & N & _ & _ & Mono).
    split; [exact V|]. split; [intros; exact N|]. intros _.
    split; [reflexivity|]. split; [reflexivity|].
    destruct (Mono (S754_finite sx mx ex) Vx eq_refl) as [M1 M2].
    split; intros; [apply M2|apply M1]; lia.
Qed.

Lemma sub_spec x y :
  valid64 x = true -> valid64 y = true ->
  let r := SFsub 53 1024 x y in
  valid64 r = true /\
  (is_finite x = true -> is_finite y = true -> is_nan r = false) /\
  (is_nan r = false ->
     is_nan x = false /\ is_nan y = false /\
     (0 <= ord y -> ord r <= ord x) /\ (ord y <= 0 -> ord x <= ord r)).
Proof.
  intros Vx Vy r. subst r. pose proof huge_pos as HP.
  pose proof (ord_bound x Vx) as Bx. pose proof (ord_bound y Vy) as By.
  destruct x as [sx|sx| |sx mx ex], y as [sy|sy| |sy my ey];
    try (cbn [SFsub]; repeat split; trivial; cbn [ord] in *; discriminate || lia).
  - destruct sx, sy; cbn; repeat split; trivial; lia.
  - destruct sy; cbn [SFsub negb ord cond_Zopp] in *; repeat split; trivial; lia.
  - cbn [SFsub valid_binary ord] in *. repeat split; trivial;
      destruct sy; cbn [negb cond_Zopp] in *; lia.
  - destruct sx, sy; cbn; repeat split; trivial; try discriminate; lia.
  - destruct sy; cbn [SFsub negb ord cond_Zopp valid_binary] in *; repeat split; trivial; lia.
  - cbn [valid_binary] in Vx, Vy.
    pose proof (sub_finite_value sx mx ex sy my ey Vx Vy) as [Val Hez].
    cbv zeta in Val. cbn [SFsub].
    set (ez := Z.min ex ey) in *.
    set (M := cond_Zopp sx (Zpos (fst (shl_align mx ex ez)))
              - cond_Zopp sy (Zpos (fst (shl_align my ey ez)))) in *.
    pose proof (normalize_spec M ez Hez) as (V & N & _ & _ & Mono).
    split; [exact V|]. split; [intros; exact N|]. intros _.
    split; [reflexivity|]. split; [reflexivity|].
    destruct (Mono (S754_finite sx mx ex) Vx eq_refl) as [M1 M2].
    split; intros; [apply M1|apply M2]; lia.
Qed.

(** *** Multiplication *)

Lemma digits_lower m k : 0 <= k -> 2 ^ k <= Zpos m -> k + 1 <= digits m.
Proof.
  intros Hk L. pose proof (digits_bounds m) as [_ Up]. pose proof (digits_pos m).
  destruct (Z_lt_le_dec (digits m) (k + 1)) as [C|C]; [|lia].
  assert (2 ^ digits m <= 2 ^ k) by (apply Z.pow_le_mono_r; lia). lia.
Qed.

Lemma digits_mul mx my : digits mx + digits my - 1 <= digits (mx * my).
Proof.
  pose proof (digits_bounds mx) as [Lx _]. pose proof (digits_bounds my) as [Ly _].
  pose proof (digits_pos mx). pose proof (digits_pos my).
  replace (digits mx + digits my - 1) with ((digits mx - 1) + (digits my - 1) + 1) by lia.
  apply digits_lower; [lia|].
  rewrite Z.pow_add_r by lia. rewrite Pos2Z.inj_mul.
  assert (0 < 2 ^ (digits mx - 1)) by (apply Z.pow_pos_nonneg; lia).
  assert (0 < 2 ^ (digits my - 1)) by (apply Z.pow_pos_nonneg; lia).
  nia.
Qed.

(** Multiplication: valid, and of the sign the signs of its operands give. *)
Lemma mul_spec x y :
  valid64 x = true -> valid64 y = true ->
  let r := SFmul 53 1024 x y in
  valid64 r = true /\
  (is_nan r = false -> 0 <= ord x -> 0 <= ord y -> 0 <= ord r).
Proof.
  intros Vx Vy r. subst r. pose proof huge_pos as HP.
  destruct x as [sx|sx| |sx mx ex], y as [sy|sy| |sy my ey];
    try (cbn [SFmul]; split; [reflexivity|]; cbn [ord is_nan]; intros; discriminate || lia).
  - destruct sx, sy; cbn [SFmul xorb ord cond_Zopp]; split; trivial; intros; lia.
  - cbn [valid_binary] in Vy. pose proof (bounded_mag my ey Vy).
    destruct sx, sy; cbn [SFmul xorb ord cond_Zopp]; split; trivial; intros; lia.
  - cbn [valid_binary] in Vx. pose proof (bounded_mag mx ex Vx).
    destruct sx, sy; cbn [SFmul xorb ord cond_Zopp]; split; trivial; intros; lia.
  - cbn [valid_binary] in Vx, Vy. cbn [SFmul].
    pose proof (bounded_facts mx ex Vx) as (Hx & Dx & Nx).
    pose proof (bounded_facts my ey Vy) as (Hy & Dy & Ny).
    pose proof (digits_mul mx my) as Dm.
    pose proof (digits_pos mx). pose proof (digits_pos my).
    pose proof (bra_spec (xorb sx sy) (mx * my) (ex + ey)) as S. cbv zeta in S.
    assert (Hn : 0 <= fexp64 (digits (mx * my) + (ex + ey)) - (ex + ey)).
    { rewrite fexp64_eq.
      destruct (Z_le_gt_dec (ex + ey) (-1074)); [lia|].
      destruct (Z.eq_dec ex (-1074)).
      - assert (digits my = 53) by (apply Ny; lia). lia.
      - assert (digits mx = 53) by (apply Nx; lia). lia. }
    specialize (S Hn). destruct S as (m'' & _ & _ & V & Cases).
    split; [exact V|]. intros _ Ox Oy.
    pose proof (bounded_mag mx ex Vx). pose proof (bounded_mag my ey Vy).
    assert (sx = false) by (destruct sx; cbn [ord cond_Zopp] in Ox; [lia|reflexivity]).
    assert (sy = false) by (destruct sy; cbn [ord cond_Zopp] in Oy; [lia|reflexivity]).
    subst sx sy. cbn [xorb] in *.
    pose proof (mag_nonneg _ V) as Mn.
    assert (Sg : has_sign false
                   (binary_round_aux 53 1024 false (Zpos (mx * my)) (ex + ey) loc_Exact)).
    { destruct Cases as [[-> _]|[(mr & er & -> & _)|(-> & _)]]; reflexivity. }
    rewrite (ord_mag false _ Sg). cbn [cond_Zopp]. exact Mn.
Qed.
End IEEE754.

(* ------------------------------------------------------------------ *)
(** ** The predictor over doubles *)
(* ------------------------------------------------------------------ *)

Section B64Operations.
Local Open Scope Z_scope.
Local Open Scope py_scope.

Lemma lit_zero64 : (#0.0 : B64.t) = zero64.
Proof. reflexivity. Qed.

Lemma lit_one64 : (#1.0 : B64.t) = one64.
Proof. vm_compute. reflexivity. Qed.

Lemma one64_valid : valid64 one64 = true.
Proof. reflexivity. Qed.

Lemma one64_ord : 0 < ord one64 < huge.
Proof. apply (bounded_mag 4503599627370496 (-52)). reflexivity. Qed.

Lemma add_valid (x y : B64.t) :
  valid64 x = true -> valid64 y = true -> valid64 (x + y) = true.
Proof. intros Vx Vy. apply (add_spec x y Vx Vy). Qed.

Lemma sub_valid (x y : B64.t) :
  valid64 x = true -> valid64 y = true -> valid64 (x - y) = true.
Proof. intros Vx Vy. apply (sub_spec x y Vx Vy). Qed.

Lemma mul_valid (x y : B64.t) :
  valid64 x = true -> valid64 y = true -> valid64 (x * y) = true.
Proof. intros Vx Vy. apply (mul_spec x y Vx Vy). Qed.

End B64Operations.

Section IEEE754Zeros.
Local Open Scope Z_scope.

(** *** Zeros, finiteness, and uniqueness of canonical doubles *)











End IEEE754Zeros.

Ltac valid64_tac :=
  repeat match goal with
         | |- valid64 (fadd _ _) = true => apply add_valid
         | |- valid64 (fsub _ _) = true => apply sub_valid
         | |- valid64 (fmul _ _) = true => apply mul_valid
         | |- valid64 (lit _) = true => vm_compute; reflexivity
         | H : valid64 ?x = true |- valid64 ?y = true => constr_eq x y; exact H
         end.


Section PredictB64.
Local Open Scope Z_scope.
Local Open Scope py_scope.

(** [clip01] on doubles: NaN goes to 1.0, everything else to the nearest
    point of [0,1]. *)
Lemma clip01_B64_spec (x : B64.t) :
  valid64 x = true ->
  valid64 (clip01 x) = true /\ is_nan (clip01 x) = false /\
  (is_nan x = true -> clip01 x = one64) /\
  (is_nan x = false -> ord (clip01 x) = Z.max 0 (Z.min (ord one64) (ord x))).
Proof.
  intros Vx. pose proof one64_ord as O1. pose proof one64_valid as V1.
  unfold clip01, py_max, py_min. cbn [flt B64_PyFloat]. unfold B64.ltb.
  rewrite lit_zero64, lit_one64.
  destruct (is_nan x) eqn:Nx.
  - destruct x; try discriminate.
    change (SFltb S754_nan one64) with false. cbv iota.
    change (SFltb zero64 one64) with true. cbv iota.
    split; [exact V1|]. split; [reflexivity|].
    split; [intros _; reflexivity|intros C; discriminate C].
  - destruct (SFltb x one64) eqn:L1.
    + apply (ltb_ord x one64 Vx V1 Nx eq_refl) in L1.
      destruct (SFltb zero64 x) eqn:L0.
      * apply (ltb_ord zero64 x eq_refl Vx eq_refl Nx) in L0. cbn [ord zero64] in L0.
        repeat split; trivial; try discriminate. intros _. lia.
      * assert (~ ord zero64 < ord x).
        { intros C. apply (ltb_ord zero64 x eq_refl Vx eq_refl Nx) in C. congruence. }
        cbn [ord zero64] in *. repeat split; trivial; try discriminate. intros _. lia.
    + assert (~ ord x < ord one64).
      { intros C. apply (ltb_ord x one64 Vx V1 Nx eq_refl) in C. congruence. }
      change (SFltb zero64 one64) with true. cbv iota.
      repeat split; trivial; try discriminate. intros _. lia.
Qed.

Lemma clip01_B64_range (x : B64.t) :
  valid64 x = true ->
  valid64 (clip01 x) = true /\ is_nan (clip01 x) = false /\
  0 <= ord (clip01 x) <= ord one64.
Proof.
  intros Vx. destruct (clip01_B64_spec x Vx) as (V & N & Hn & Ho).
  split; [exact V|]. split; [exact N|]. pose proof one64_ord.
  destruct (is_nan x) eqn:Nx.
  - rewrite (Hn eq_refl). lia.
  - rewrite (Ho eq_refl). lia.
Qed.

Lemma not_nan_finite (x : B64.t) :
  valid64 x = true -> is_nan x = false -> - huge < ord x < huge -> is_finite x = true.
Proof.
  pose proof huge_pos. destruct x as [s|s| |s m e]; cbn [ord is_finite is_nan]; trivial.
  - destruct s; cbn [cond_Zopp]; lia.
  - discriminate.
Qed.

(** The band around a mean in [0,1]. *)
Lemma band_well_formed_B64 (nid label : string) (val width : B64.t) :
  valid64 val = true -> is_nan val = false -> 0 <= ord val <= ord one64 ->
  valid64 width = true -> is_finite width = true -> 0 <= ord width ->
  well_formed_B64
    (NodePrediction.mk nid label val
       (py_max #0.0 (val - width)) (py_min #1.0 (val + width))).
Proof.
  intros Vv Nv Rv Vw Fw Pw. pose proof one64_ord as O1. pose proof one64_valid as V1.
  assert (Fv : is_finite val = true) by (apply not_nan_finite; trivial; lia).
  assert (Nw : is_nan width = false) by (destruct width; trivial; discriminate).
  destruct (sub_spec val width Vv Vw) as (Vs & Ns & Ms). specialize (Ns Fv Fw).
  destruct (Ms Ns) as (_ & _ & Sle & _). specialize (Sle Pw).
  destruct (add_spec val width Vv Vw) as (Va & Na & Ma). specialize (Na Fv Fw).
  destruct (Ma Na) as (_ & _ & Age & _). specialize (Age Pw).
  unfold py_max, py_min. cbn [flt fadd fsub B64_PyFloat] in *.
  rewrite lit_zero64, lit_one64.
  unfold B64.ltb, B64.add, B64.sub, B64.prec, B64.emax, B64.t in *.
  set (lo := SFsub 53 1024 val width) in *. set (hi := SFadd 53 1024 val width) in *.
  clearbody lo hi.
  assert (Lo : valid64 (if SFltb zero64 lo then lo else zero64) = true /\
               is_nan (if SFltb zero64 lo then lo else zero64) = false /\
               ord (if SFltb zero64 lo then lo else zero64) = Z.max 0 (ord lo)).
  { destruct (SFltb zero64 lo) eqn:L.
    - apply (ltb_ord zero64 lo eq_refl Vs eq_refl Ns) in L. cbn [ord zero64] in L.
      repeat split; trivial. lia.
    - assert (~ ord zero64 < ord lo).
      { intros C. apply (ltb_ord zero64 lo eq_refl Vs eq_refl Ns) in C. congruence. }
      cbn [ord zero64] in *. repeat split; trivial. lia. }
  assert (Hi : valid64 (if SFltb hi one64 then hi else one64) = true /\
               is_nan (if SFltb hi one64 then hi else one64) = false /\
               ord (if SFltb hi one64 then hi else one64) = Z.min (ord one64) (ord hi)).
  { destruct (SFltb hi one64) eqn:L.
    - apply (ltb_ord hi one64 Va V1 Na eq_refl) in L. repeat split; trivial. lia.
    - assert (~ ord hi < ord one64).
      { intros C. apply (ltb_ord hi one64 Va V1 Na eq_refl) in C. congruence. }
      repeat split; trivial. lia. }
  destruct Lo as (Vlo & Nlo & Olo). destruct Hi as (Vhi & Nhi & Ohi).
  unfold well_formed_B64, B64.leb.
  cbn [NodePrediction.mean NodePrediction.ci_lower NodePrediction.ci_upper].
  assert (Oz : ord zero64 = 0) by reflexivity.
  repeat split; apply leb_ord; trivial; lia.
Qed.

Lemma band_clip_B64 (nid label : string) (x width : B64.t) :
  valid64 x = true ->
  valid64 width = true -> is_finite width = true -> 0 <= ord width ->
  well_formed_B64
    (NodePrediction.mk nid label (clip01 x)
       (py_max #0.0 (clip01 x - width)) (py_min #1.0 (clip01 x + width))).
Proof.
  intros Vx Vw Fw Pw. destruct (clip01_B64_range x Vx) as (V & N & R).
  now apply band_well_formed_B64.
Qed.

Lemma width_a_B64 :
  valid64 (#0.15 : B64.t) = true /\ is_finite (#0.15 : B64.t) = true /\ 0 <= ord (#0.15 : B64.t).
Proof.
  assert (E : (#0.15 : B64.t) = S754_finite false 5404319552844595 (-55))
    by (vm_compute; reflexivity).
  rewrite E. split; [reflexivity|]. split; [reflexivity|].
  pose proof (bounded_mag 5404319552844595 (-55) eq_refl). cbn [ord cond_Zopp]. lia.
Qed.

Lemma width_b_B64 :
  valid64 (#0.12 : B64.t) = true /\ is_finite (#0.12 : B64.t) = true /\ 0 <= ord (#0.12 : B64.t).
Proof.
  assert (E : exists m e, (#0.12 : B64.t) = S754_finite false m e /\ bounded 53 1024 m e = true).
  { eexists _, _. split; vm_compute; reflexivity. }
  destruct E as (m & e & -> & B).
  split; [exact B|]. split; [reflexivity|].
  pose proof (bounded_mag m e B). cbn [ord cond_Zopp]. lia.
Qed.

Section ValidRequest.
Variable request : PredictRequest.t B64.t.
Hypothesis Vr : valid_request request.

Lemma perceived_warmth_valid : valid64 (perceived_warmth request) = true.
Proof. destruct Vr as (? & ? & ? & ?). unfold perceived_warmth, w, glare. valid64_tac. Qed.

Lemma perceived_naturalness_valid : valid64 (perceived_naturalness request) = true.
Proof.
  destruct Vr as (? & ? & ? & ?). unfold perceived_naturalness, w, plants, clutter.
  valid64_tac.
Qed.

Lemma cognitive_load_valid : valid64 (cognitive_load request) = true.
Proof.
  destruct Vr as (? & ? & ? & ?). unfold cognitive_load, plants, clutter, glare.
  valid64_tac.
Qed.

Lemma positive_affect_valid : valid64 (positive_affect request) = true.
Proof.
  pose proof perceived_warmth_valid. pose proof perceived_naturalness_valid.
  pose proof cognitive_load_valid. unfold positive_affect. valid64_tac.
Qed.

Lemma state_anxiety_valid : valid64 (state_anxiety request) = true.
Proof.
  pose proof positive_affect_valid. pose proof cognitive_load_valid.
  unfold state_anxiety. valid64_tac.
Qed.

Lemma perceived_stress_valid : valid64 (perceived_stress request) = true.
Proof.
  pose proof positive_affect_valid. pose proof cognitive_load_valid.
  pose proof perceived_naturalness_valid. unfold perceived_stress. valid64_tac.
Qed.

Lemma task_performance_valid : valid64 (task_performance request) = true.
Proof.
  pose proof positive_affect_valid. pose proof cognitive_load_valid.
  pose proof state_anxiety_valid. unfold task_performance. valid64_tac.
Qed.

Lemma synergy_valid : valid64 (synergy request) = true.
Proof. destruct Vr as (? & ? & ? & ?). unfold synergy, w, plants. valid64_tac. Qed.

Lemma positive_affect_b_valid : valid64 (positive_affect_b request) = true.
Proof.
  unfold positive_affect_b. apply clip01_B64_range.
  pose proof positive_affect_valid. pose proof synergy_valid. valid64_tac.
Qed.

Lemma state_anxiety_b_valid : valid64 (state_anxiety_b request) = true.
Proof.
  unfold state_anxiety_b. apply clip01_B64_range.
  pose proof positive_affect_b_valid. pose proof cognitive_load_valid. valid64_tac.
Qed.

Lemma model_a_well_formed_B64 :
  Forall well_formed_B64 (PredictResponse.model_a (predict request)).
Proof.
  unfold predict; cbn [PredictResponse.model_a]. rewrite model_a_preds_map.
  unfold model_a_nodes; cbn [map].
  pose proof perceived_warmth_valid. pose proof perceived_naturalness_valid.
  pose proof cognitive_load_valid. pose proof positive_affect_valid.
  pose proof state_anxiety_valid. pose proof perceived_stress_valid.
  pose proof task_performance_valid.
  destruct width_a_B64 as (Vw & Fw & Pw).
  repeat (apply Forall_cons; [apply band_clip_B64; assumption|]).
  apply Forall_nil.
Qed.

Lemma model_b_well_formed_B64 :
  Forall well_formed_B64 (PredictResponse.model_b (predict request)).
Proof.
  unfold predict; cbn [PredictResponse.model_b]. rewrite model_b_preds_map.
  unfold model_b_nodes; cbn [map].
  pose proof perceived_warmth_valid. pose proof perceived_naturalness_valid.
  pose proof cognitive_load_valid. pose proof positive_affect_valid.
  pose proof synergy_valid. pose proof positive_affect_b_valid.
  pose proof state_anxiety_b_valid.
  destruct width_b_B64 as (Vw & Fw & Pw).
  unfold positive_affect_b, state_anxiety_b, perceived_stress_b, task_performance_b.
  repeat (apply Forall_cons; [apply band_clip_B64; trivial; valid64_tac|]).
  apply Forall_nil.
Qed.
End ValidRequest.

(** *** Synergy and positive affect over doubles *)









Section ZeroSynergy.
Variable request : PredictRequest.t B64.t.
Hypothesis Vr : valid_request request.





Hypothesis Zp :
  is_zero (PredictRequest.wood_coverage request) = true \/
  is_zero (PredictRequest.plant_density request) = true.
Hypothesis P0 : B64.leb zero64 (positive_affect request) = true.
Hypothesis P1 : B64.leb (positive_affect request) one64 = true.
Hypothesis S0 : B64.leb zero64 (state_anxiety request) = true.
Hypothesis S1 : B64.leb (state_anxiety request) one64 = true.




End ZeroSynergy.
End PredictB64.

(* ------------------------------------------------------------------ *)
(** ** The all-zero scenario *)
(* ------------------------------------------------------------------ *)

(** C1 (as amended).  For the all-zero request the shared computation gives
    perceived_warmth 0.3, perceived_naturalness 0.2, cognitive_load 0.5 and
    positive_affect 0.3 + 0.6*0.3 + 0.5*0.2 - 0.3*0.5 = 0.43; steps 5 to 7
    then give state_anxiety 0.599, perceived_stress 0.415 and
    task_performance 0.2684.  The seven Model A means are exactly these
    numbers in rational arithmetic, and agree with them to six decimal
    places in binary64. *)
Theorem C1_zero_request_chain :
  ((perceived_warmth zero_request_Q == 0.3)%Q /\
   (perceived_naturalness zero_request_Q == 0.2)%Q /\
   (cognitive_load zero_request_Q == 0.5)%Q /\
   (positive_affect zero_request_Q == 0.43)%Q /\
   (state_anxiety zero_request_Q == 0.599)%Q /\
   (perceived_stress zero_request_Q == 0.415)%Q /\
   (task_performance zero_request_Q == 0.2684)%Q) /\
  Forall2 Qeq
    (means (PredictResponse.model_a (predict zero_request_Q)))
    [0.3; 0.2; 0.5; 0.43; 0.599; 0.415; 0.2684]%Q /\
  Forall2 (fun x q => B64.near six_places x q = true)
    (means (PredictResponse.model_a (predict zero_request_B64)))
    [0.3; 0.2; 0.5; 0.43; 0.599; 0.415; 0.2684]%Q.
Proof.
  split; [|split].
  - repeat split; vm_compute; reflexivity.
  - rewrite means_model_a. repeat constructor; vm_compute; reflexivity.
  - rewrite means_model_a. repeat constructor; vm_compute; reflexivity.
Qed.

(** C1 as the spec words it fails: positive_affect for the all-zero request
    is not 0.33, neither exactly nor to six decimal places. *)
Lemma C1_positive_affect_is_not_0_33 :
  ~ ((perceived_warmth zero_request_Q == 0.3)%Q /\
     (perceived_naturalness zero_request_Q == 0.2)%Q /\
     (cognitive_load zero_request_Q == 0.5)%Q /\
     (positive_affect zero_request_Q == 0.33)%Q) /\
  ~ (Qabs (positive_affect zero_request_Q - 0.33) <= six_places)%Q /\
  B64.near six_places (positive_affect zero_request_B64) 0.33 = false.
Proof.
  split; [|split].
  - intros (_ & _ & _ & E). vm_compute in E. discriminate.
  - intros L. vm_compute in L. apply L. reflexivity.
  - vm_compute. reflexivity.
Qed.

(* ------------------------------------------------------------------ *)
(** ** Model B against the step formulas *)
(* ------------------------------------------------------------------ *)


(** In exact arithmetic it makes no difference to the reported
    task_performance whether step 7 reads the clipped or the unclipped
    step 5 result: outside [0,1] the step 5 value forces step 7 past the
    same clipping bound either way. *)
Lemma step7_clipped_feed (pa cl : Q) :
  (0 <= pa)%Q -> (pa <= 1)%Q ->
  (clip01 (#0.5 + #0.6 * pa - #0.5 * cl - #0.4 * clip01 (#0.7 - #0.7 * pa + #0.4 * cl))
   == clip01 (#0.5 + #0.6 * pa - #0.5 * cl - #0.4 * (#0.7 - #0.7 * pa + #0.4 * cl)))%Q.
Proof. intros R0 R1. q_solve. Qed.

Lemma task_performance_b_unclipped_feed (request : PredictRequest.t Q) :
  let pa_b := spec_positive_affect_b request in
  let cl := cognitive_load request in
  (task_performance_b request == clip01 (step7 pa_b cl (step5 pa_b cl)))%Q.
Proof.
  intros pa_b cl. subst pa_b cl.
  unfold task_performance_b, state_anxiety_b, step7, step5,
    spec_positive_affect_b, positive_affect_b, synergy, w, plants.
  apply step7_clipped_feed; apply clip01_Q_range.
Qed.

(* ------------------------------------------------------------------ *)
(** ** Range of the reported records (rational arithmetic) *)
(* ------------------------------------------------------------------ *)

Lemma band_well_formed_Q (nid label : string) (val width : Q) :
  in_unit val -> (0 <= width)%Q ->
  well_formed_Q
    (NodePrediction.mk nid label val
       (py_max #0.0 (val - width)) (py_min #1.0 (val + width))).
Proof.
  unfold well_formed_Q, in_unit; cbn [NodePrediction.mean NodePrediction.ci_lower
    NodePrediction.ci_upper]. intros [? ?] ?.
  repeat split; q_solve.
Qed.

Lemma band_clip_well_formed_Q (nid label : string) (x width : Q) :
  (0 <= width)%Q ->
  well_formed_Q
    (NodePrediction.mk nid label (clip01 x)
       (py_max #0.0 (clip01 x - width)) (py_min #1.0 (clip01 x + width))).
Proof. intros W. apply band_well_formed_Q; [apply clip01_Q_range|exact W]. Qed.

Lemma width_a_nonneg : (0 <= #0.15)%Q.
Proof. vm_compute. discriminate. Qed.

Lemma width_b_nonneg : (0 <= #0.12)%Q.
Proof. vm_compute. discriminate. Qed.

Lemma model_a_well_formed_Q (request : PredictRequest.t Q) :
  Forall well_formed_Q (PredictResponse.model_a (predict request)).
Proof.
  unfold predict; cbn [PredictResponse.model_a]. rewrite model_a_preds_map.
  unfold model_a_nodes; cbn [map].
  repeat (apply Forall_cons; [apply band_clip_well_formed_Q; exact width_a_nonneg|]).
  apply Forall_nil.
Qed.

Lemma model_b_well_formed_Q (request : PredictRequest.t Q) :
  Forall well_formed_Q (PredictResponse.model_b (predict request)).
Proof.
  unfold predict; cbn [PredictResponse.model_b]. rewrite model_b_preds_map.
  unfold model_b_nodes, positive_affect_b, state_anxiety_b,
    perceived_stress_b, task_performance_b; cbn [map].
  repeat (apply Forall_cons; [apply band_clip_well_formed_Q; exact width_b_nonneg|]).
  apply Forall_nil.
Qed.

(* ------------------------------------------------------------------ *)
(** ** Model B against Model A (rational arithmetic) *)
(* ------------------------------------------------------------------ *)



Lemma synergy_Q_nonneg (request : PredictRequest.t Q) :
  (0 <= PredictRequest.wood_coverage request)%Q ->
  (0 <= PredictRequest.plant_density request)%Q ->
  (0 <= synergy request)%Q.
Proof.
  intros Hw Hp. unfold synergy, w, plants; cbn [lit fmul Q_PyFloat].
  apply Qmult_le_0_compat; [apply Qmult_le_0_compat|]; trivial. lra.
Qed.




(** Raising wood coverage and plant density themselves moves the shared
    positive_affect as well: from (0.2, 0.2) to (1, 1) the product grows, both
    means reach the clipping bound 1, and Model B's excess over Model A goes
    from 0.012 to 0.  The comparison of C6 is therefore stated with the
    shared positive_affect held fixed. *)
Lemma excess_closes_at_the_clipping_bound :
  (PredictRequest.wood_coverage leafy_request_Q * PredictRequest.plant_density leafy_request_Q
   < PredictRequest.wood_coverage lush_request_Q * PredictRequest.plant_density lush_request_Q)%Q /\
  (positive_affect_b leafy_request_Q - clip01 (positive_affect leafy_request_Q) == 0.012)%Q /\
  (positive_affect_b lush_request_Q - clip01 (positive_affect lush_request_Q) == 0)%Q /\
  (clip01 (positive_affect leafy_request_Q) <= positive_affect_b leafy_request_Q)%Q /\
  (clip01 (positive_affect lush_request_Q) <= positive_affect_b lush_request_Q)%Q.
Proof.
  repeat split; vm_compute; first [reflexivity|discriminate].
Qed.




(* ------------------------------------------------------------------ *)
(** ** Dictionaries *)
(* ------------------------------------------------------------------ *)

Section DictFacts.
Context {V : Type}.
Implicit Types (d : dict V) (k : string) (v : V).

Lemma dict_get_set_same k v d : dict_get k (dict_set k v d) = Some v.
Proof.
  induction d as [|[k' v'] d IH]; simpl.
  - now rewrite String.eqb_refl.
  - destruct (String.eqb k' k) eqn:E; simpl; rewrite E; auto.
Qed.

Lemma dict_get_set_other k k' v d :
  k <> k' -> dict_get k' (dict_set k v d) = dict_get k' d.
Proof.
  intros N. induction d as [|[k0 v0] d IH]; simpl.
  - apply String.eqb_neq in N. now rewrite N.
  - destruct (String.eqb k0 k) eqn:E; simpl.
    + apply String.eqb_eq in E; subst k0.
      apply String.eqb_neq in N. now rewrite N.
    + destruct (String.eqb k0 k'); auto.
Qed.

Lemma dict_get_set k k' v d :
  dict_get k' (dict_set k v d) = if String.eqb k k' then Some v else dict_get k' d.
Proof.
  destruct (String.eqb k k') eqn:E.
  - apply String.eqb_eq in E; subst. apply dict_get_set_same.
  - apply String.eqb_neq in E. now apply dict_get_set_other.
Qed.

Lemma dict_keys_set k v d k' :
  In k' (dict_keys (dict_set k v d)) <-> k' = k \/ In k' (dict_keys d).
Proof.
  induction d as [|[k0 v0] d IH]; simpl.
  - intuition.
  - destruct (String.eqb k0 k) eqn:E; simpl.
    + apply String.eqb_eq in E; subst k0. intuition.
    + rewrite IH. intuition.
Qed.

Lemma dict_keys_set_NoDup k v d :
  NoDup (dict_keys d) -> NoDup (dict_keys (dict_set k v d)).
Proof.
  induction d as [|[k0 v0] d IH]; simpl; intros ND.
  - constructor; [intros []|constructor].
  - inversion ND as [|? ? Hn Hd]; subst.
    destruct (String.eqb k0 k) eqn:E; simpl.
    + now constructor.
    + constructor; [|now apply IH].
      rewrite dict_keys_set. intros [->|Hin]; [|now apply Hn].
      now rewrite String.eqb_refl in E.
Qed.

Lemma dict_set_Forall (P : string * V -> Prop) k v d :
  P (k, v) -> Forall P d -> Forall P (dict_set k v d).
Proof.
  intros Pk. induction d as [|[k0 v0] d IH]; simpl; intros Fd.
  - now repeat constructor.
  - inversion Fd; subst. destruct (String.eqb k0 k) eqn:E.
    + apply String.eqb_eq in E; subst k0. now constructor.
    + constructor; auto.
Qed.

Lemma dict_get_In k v d : dict_get k d = Some v -> In (k, v) d.
Proof.
  induction d as [|[k0 v0] d IH]; simpl; [discriminate|].
  destruct (String.eqb k0 k) eqn:E.
  - apply String.eqb_eq in E; subst k0. intros [= ->]. now left.
  - intros G. right. now apply IH.
Qed.

Lemma dict_get_None k d : dict_get k d = None <-> ~ In k (dict_keys d).
Proof.
  induction d as [|[k0 v0] d IH]; simpl.
  - intuition.
  - destruct (String.eqb k0 k) eqn:E.
    + apply String.eqb_eq in E; subst k0. split; [discriminate|intros N; exfalso; auto].
    + apply String.eqb_neq in E. rewrite IH. intuition.
Qed.
End DictFacts.

(* ------------------------------------------------------------------ *)
(** ** The graph store *)
(* ------------------------------------------------------------------ *)

Section StoreFacts.
Context {F : Type} `{PyFloat F}.

Lemma run_call_registers (d : dict (EdgeDetail.t F)) (c : Call.t) :
  run_call d c = dict_set (Call.edge_id c) (registered_detail c) d.
Proof. reflexivity. Qed.

Lemma get_after_calls (cs : list Call.t) (d : dict (EdgeDetail.t F)) (k : string) :
  dict_get k (fold_left run_call cs d) =
  match find (fun c => String.eqb (Call.edge_id c) k) (rev cs) with
  | Some c => Some (registered_detail c)
  | None => dict_get k d
  end.
Proof.
  revert d. induction cs as [|c cs IH]; intros d; simpl; [reflexivity|].
  rewrite IH, find_app_or.
  destruct (find _ (rev cs)); [reflexivity|].
  simpl. rewrite run_call_registers, dict_get_set.
  destruct (String.eqb (Call.edge_id c) k); reflexivity.
Qed.

Lemma keys_after_calls (cs : list Call.t) (d : dict (EdgeDetail.t F)) (k : string) :
  In k (dict_keys (fold_left run_call cs d)) <->
  In k (map Call.edge_id cs) \/ In k (dict_keys d).
Proof.
  revert d. induction cs as [|c cs IH]; intros d; simpl; [intuition|].
  rewrite IH, run_call_registers, dict_keys_set. intuition.
Qed.

Lemma calls_keep_NoDup (cs : list Call.t) (d : dict (EdgeDetail.t F)) :
  NoDup (dict_keys d) -> NoDup (dict_keys (fold_left run_call cs d)).
Proof.
  revert d. induction cs as [|c cs IH]; intros d ND; simpl; [exact ND|].
  apply IH. rewrite run_call_registers. now apply dict_keys_set_NoDup.
Qed.

Lemma calls_keep_keyed (cs : list Call.t) (d : dict (EdgeDetail.t F)) :
  keyed_by_id d -> keyed_by_id (fold_left run_call cs d).
Proof.
  revert d. induction cs as [|c cs IH]; intros d K; simpl; [exact K|].
  apply IH. rewrite run_call_registers. apply dict_set_Forall; [reflexivity|exact K].
Qed.

Lemma calls_keep_ci (cs : list Call.t) (d : dict (EdgeDetail.t F)) :
  Forall (fun kv => ci_invariant (EdgeDetail.param (snd kv))) d ->
  Forall (fun kv => ci_invariant (EdgeDetail.param (snd kv))) (fold_left run_call cs d).
Proof.
  revert d. induction cs as [|c cs IH]; intros d K; simpl; [exact K|].
  apply IH. rewrite run_call_registers.
  apply dict_set_Forall; [split; reflexivity|exact K].
Qed.

Lemma EDGES_NoDup : NoDup (dict_keys (@EDGES F _)).
Proof. apply calls_keep_NoDup. constructor. Qed.

Lemma EDGES_keyed : keyed_by_id (@EDGES F _).
Proof. apply calls_keep_keyed. constructor. Qed.

Lemma EDGES_keys (k : string) : In k (dict_keys (@EDGES F _)) <-> In k registered_ids.
Proof. unfold EDGES. rewrite keys_after_calls. simpl. unfold registered_ids. intuition. Qed.

Lemma EDGES_keys_not (k : string) :
  ~ In k registered_ids -> dict_get k (@EDGES F _) = None.
Proof. intros N. apply dict_get_None. now rewrite EDGES_keys. Qed.

(** In a store with distinct keys filed by id, the listing holds exactly one
    brief edge for a stored id: the projection of its detail. *)
Lemma listing_entry (d : dict (EdgeDetail.t F)) (k : string) (ed : EdgeDetail.t F) :
  NoDup (dict_keys d) -> keyed_by_id d -> dict_get k d = Some ed ->
  filter (fun g => String.eqb (GraphEdge.id g) k) (map project (dict_values d))
  = [project ed].
Proof.
  induction d as [|[k0 v0] d IH]; simpl; [discriminate|].
  intros ND K G. inversion ND as [|? ? Hn Hd]; subst.
  inversion K as [|? ? Hk Kd]; subst. simpl in Hk.
  rewrite Hk. destruct (String.eqb k0 k) eqn:E.
  - injection G as ->. f_equal.
    apply String.eqb_eq in E; subst k0.
    assert (N : Forall (fun g => String.eqb (GraphEdge.id g) k = false)
                  (map project (dict_values d))).
    { apply Forall_forall. intros g Hg. unfold dict_values in Hg.
      rewrite map_map in Hg. apply in_map_iff in Hg as [[k1 v1] [<- Hin]].
      simpl. apply String.eqb_neq. intros Ek.
      rewrite Forall_forall in Kd. specialize (Kd _ Hin). simpl in Kd.
      apply Hn. unfold dict_keys. apply in_map_iff. exists (k1, v1).
      simpl. split; [congruence|assumption]. }
    clear - N. induction N as [|g l Hg _ IHl]; simpl; [reflexivity|].
    now rewrite Hg.
  - now apply IH.
Qed.
End StoreFacts.

Lemma mem_In (x : string) (l : list string) :
  existsb (String.eqb x) l = true -> In x l.
Proof.
  intros E. apply existsb_exists in E as [y [Hy Ey]].
  apply String.eqb_eq in Ey. now subst.
Qed.

Lemma get_registered {F} `{PyFloat F} (c : Call.t) :
  In c register_edge_calls ->
  get_edge_detail (Call.edge_id c) = Return (registered_detail c).
Proof.
  intros Hin. unfold get_edge_detail, get_edge_detail_of, EDGES.
  rewrite get_after_calls.
  simpl in Hin.
  repeat (destruct Hin as [<-|Hin]; [reflexivity|]).
  contradiction.
Qed.

Lemma get_unregistered {F} `{PyFloat F} (edge_id : string) :
  ~ In edge_id registered_ids ->
  @get_edge_detail F _ edge_id = Raise (mkHTTPException 404 "Edge not found").
Proof.
  intros N. unfold get_edge_detail, get_edge_detail_of.
  apply EDGES_keys_not in N. now rewrite N.
Qed.

(** C3.  Every [ParamSummary] held by the store satisfies
    ci_lower = mean - 1.96*sd and ci_upper = mean + 1.96*sd: exactly, as the
    very float expressions, in either arithmetic; and in binary64 the stored
    bounds are within floating-point tolerance of the exact decimal values
    mean - 1.96*sd and mean + 1.96*sd of the registered literals. *)
Theorem C3_param_interval_invariant :
  (forall (F : Type) (PF : PyFloat F),
      Forall (fun ed : EdgeDetail.t F => ci_invariant (EdgeDetail.param ed))
        (dict_values EDGES)) /\
  Forall (fun ed : EdgeDetail.t Q =>
            let ps := EdgeDetail.param ed in
            (ParamSummary.ci_lower ps == ParamSummary.mean ps - 1.96 * ParamSummary.sd ps)%Q /\
            (ParamSummary.ci_upper ps == ParamSummary.mean ps + 1.96 * ParamSummary.sd ps)%Q)
    (dict_values EDGES) /\
  Forall2 (fun (c : Call.t) (ed : EdgeDetail.t B64.t) =>
             let ps := EdgeDetail.param ed in
             B64.near float_tolerance (ParamSummary.mean ps) (Call.mean c) = true /\
             B64.near float_tolerance (ParamSummary.sd ps) (Call.sd c) = true /\
             B64.near float_tolerance (ParamSummary.ci_lower ps)
               (Call.mean c - 1.96 * Call.sd c) = true /\
             B64.near float_tolerance (ParamSummary.ci_upper ps)
               (Call.mean c + 1.96 * Call.sd c) = true)
    register_edge_calls (dict_values EDGES).
Proof.
  assert (G : forall (F : Type) (PF : PyFloat F),
             Forall (fun ed : EdgeDetail.t F => ci_invariant (EdgeDetail.param ed))
               (dict_values EDGES)).
  { intros F PF. unfold dict_values. rewrite Forall_map.
    apply calls_keep_ci. constructor. }
  split; [exact G|split].
  - specialize (G Q Q_PyFloat). revert G. apply Forall_impl.
    intros ed [L U]. cbn zeta. rewrite L, U. split; reflexivity.
  - vm_compute. repeat (apply Forall2_cons; [repeat split|]). apply Forall2_nil.
Qed.

(** C4.  For every string edgeId: if a registration call carries that id, the
    lookup returns the full EdgeDetail that call registered, evidence list
    included; the lookup fails exactly when the id is not registered, and then
    with the 404 "Edge not found" exception; whatever it returns carries the
    requested id; and equal ids give equal results. *)
Theorem C4_edge_detail_lookup :
  forall (F : Type) (PF : PyFloat F) (edgeId : string),
    (forall c : Call.t,
        In c register_edge_calls -> Call.edge_id c = edgeId ->
        get_edge_detail edgeId = Return (registered_detail c) /\
        EdgeDetail.evidence (registered_detail (F := F) c) = or_empty (Call.evidence c)) /\
    (In edgeId registered_ids <->
       exists ed : EdgeDetail.t F, get_edge_detail edgeId = Return ed) /\
    (~ In edgeId registered_ids <->
       @get_edge_detail F PF edgeId = Raise (mkHTTPException 404 "Edge not found")) /\
    (forall e : HTTPException,
        @get_edge_detail F PF edgeId = Raise e ->
        e = mkHTTPException 404 "Edge not found" /\ ~ In edgeId registered_ids) /\
    (forall ed : EdgeDetail.t F,
        get_edge_detail edgeId = Return ed -> EdgeDetail.id ed = edgeId) /\
    (forall edgeId' : string,
        edgeId' = edgeId -> @get_edge_detail F PF edgeId' = get_edge_detail edgeId).
Proof.
  intros F PF edgeId.
  assert (Reg : In edgeId registered_ids ->
                exists ed : EdgeDetail.t F, get_edge_detail edgeId = Return ed).
  { intros Hin. apply in_map_iff in Hin as [c [<- Hc]].
    exists (registered_detail c). now apply get_registered. }
  assert (Unreg : ~ In edgeId registered_ids ->
                  @get_edge_detail F PF edgeId = Raise (mkHTTPException 404 "Edge not found"))
    by apply get_unregistered.
  assert (Dec : In edgeId registered_ids \/ ~ In edgeId registered_ids).
  { destruct (in_dec string_dec edgeId registered_ids); [left|right]; assumption. }
  split; [|split; [|split; [|split; [|split]]]].
  - intros c Hc <-. split; [now apply get_registered|reflexivity].
  - split; [exact Reg|].
    intros [ed E]. destruct Dec as [Hin|N]; [exact Hin|].
    rewrite (Unreg N) in E. discriminate.
  - split; [exact Unreg|].
    intros E Hin. destruct (Reg Hin) as [ed E']. rewrite E in E'. discriminate.
  - intros e E. destruct Dec as [Hin|N].
    + destruct (Reg Hin) as [ed E']. rewrite E in E'. discriminate.
    + split; [|exact N]. rewrite (Unreg N) in E. now injection E as <-.
  - intros ed E. unfold get_edge_detail, get_edge_detail_of in E.
    destruct (dict_get edgeId EDGES) as [ed'|] eqn:G; [|discriminate].
    injection E as ->. apply dict_get_In in G.
    pose proof (@EDGES_keyed F PF) as K. unfold keyed_by_id in K.
    rewrite Forall_forall in K. exact (K _ G).
  - intros edgeId' ->. reflexivity.
Qed.

Lemma C4_edge_detail_lookup_witness :
  (exists ed : EdgeDetail.t Q,
      get_edge_detail "plant_density->perceived_naturalness" = Return ed /\
      EdgeDetail.status ed = "experimentally_validated" /\
      length (EdgeDetail.evidence ed) = 2%nat) /\
  @get_edge_detail Q _ "foo->bar" = Raise (mkHTTPException 404 "Edge not found").
Proof.
  split.
  - pose proof (C4_edge_detail_lookup Q Q_PyFloat "plant_density->perceived_naturalness")
      as (Hreg & _).
    eexists. split.
    + apply (Hreg (nth 2 register_edge_calls (Call.mk "" "" "" 0 0 "" None))).
      * simpl. right; right; left. reflexivity.
      * reflexivity.
    + split; reflexivity.
  - pose proof (C4_edge_detail_lookup Q Q_PyFloat "foo->bar") as (_ & _ & Hun & _).
    apply Hun. intros Hin. simpl in Hin.
    repeat (destruct Hin as [Hin|Hin]; [discriminate Hin|]). exact Hin.
Defined.

(** C7.  For every request, in either arithmetic, each model's list has
    exactly seven records, in the order perceived_warmth,
    perceived_naturalness, cognitive_load, positive_affect, state_anxiety,
    perceived_stress, task_performance, and the (node_id, label) pairs are
    those of the mediator and outcome nodes of [NODES]. *)
Theorem C7_prediction_records_match_nodes :
  forall (F : Type) (PF : PyFloat F) (request : PredictRequest.t F),
    let response := predict request in
    length (PredictResponse.model_a response) = 7%nat /\
    length (PredictResponse.model_b response) = 7%nat /\
    map (@NodePrediction.node_id F) (PredictResponse.model_a response)
      = ["perceived_warmth"; "perceived_naturalness"; "cognitive_load";
         "positive_affect"; "state_anxiety"; "perceived_stress"; "task_performance"] /\
    map (@NodePrediction.node_id F) (PredictResponse.model_b response)
      = ["perceived_warmth"; "perceived_naturalness"; "cognitive_load";
         "positive_affect"; "state_anxiety"; "perceived_stress"; "task_performance"] /\
    prediction_keys (PredictResponse.model_a response) = mediator_outcome_nodes /\
    prediction_keys (PredictResponse.model_b response) = mediator_outcome_nodes.
Proof.
  intros F PF request response. subst response. unfold predict.
  cbn [PredictResponse.model_a PredictResponse.model_b].
  rewrite model_a_preds_map, model_b_preds_map.
  repeat split; reflexivity.
Qed.

(** C5.  For every request, whatever its range, all seven Model A and all
    seven Model B records have mean in [0,1], ci_lower <= mean <= ci_upper,
    and both bounds in [0,1]: over the rationals for every rational input,
    and over binary64 for every double, NaN and the infinities included. *)
Theorem C5_predictions_well_formed :
  (forall request : PredictRequest.t Q,
      Forall well_formed_Q (PredictResponse.model_a (predict request)) /\
      length (PredictResponse.model_a (predict request)) = 7%nat /\
      Forall well_formed_Q (PredictResponse.model_b (predict request)) /\
      length (PredictResponse.model_b (predict request)) = 7%nat) /\
  (forall request : PredictRequest.t B64.t,
      valid_request request ->
      Forall well_formed_B64 (PredictResponse.model_a (predict request)) /\
      length (PredictResponse.model_a (predict request)) = 7%nat /\
      Forall well_formed_B64 (PredictResponse.model_b (predict request)) /\
      length (PredictResponse.model_b (predict request)) = 7%nat).
Proof.
  split.
  - intros request. split; [|split; [|split]].
    + apply model_a_well_formed_Q.
    + unfold predict; cbn [PredictResponse.model_a].
      rewrite model_a_preds_map. reflexivity.
    + apply model_b_well_formed_Q.
    + unfold predict; cbn [PredictResponse.model_b].
      rewrite model_b_preds_map. reflexivity.
  - intros request Vr. split; [|split; [|split]].
    + now apply model_a_well_formed_B64.
    + unfold predict; cbn [PredictResponse.model_a].
      rewrite model_a_preds_map. reflexivity.
    + now apply model_b_well_formed_B64.
    + unfold predict; cbn [PredictResponse.model_b].
      rewrite model_b_preds_map. reflexivity.
Qed.

Lemma C5_predictions_witness :
  valid_request wild_request /\
  Forall well_formed_B64 (PredictResponse.model_a (predict wild_request)) /\
  Forall well_formed_B64 (PredictResponse.model_b (predict wild_request)).
Proof.
  assert (V : valid_request wild_request) by (repeat split; reflexivity).
  split; [exact V|].
  pose proof (proj2 C5_predictions_well_formed wild_request V) as (A & _ & B & _).
  split; [exact A|exact B].
Defined.

Lemma listing_edges {F} `{PyFloat F} (d : dict (EdgeDetail.t F)) :
  GraphPayload.edges (get_demo_graph_of d) = map project (dict_values d).
Proof. unfold get_demo_graph_of; cbn [GraphPayload.edges]. apply for_append_map. Qed.

Lemma after_calls_endpoints {F} `{PyFloat F} (cs : list Call.t) (d : dict (EdgeDetail.t F))
    (P : string -> Prop) :
  Forall (fun c => P (Call.from_node c) /\ P (Call.to_node c)) cs ->
  Forall (fun kv => P (EdgeDetail.from_node (snd kv)) /\ P (EdgeDetail.to_node (snd kv))) d ->
  Forall (fun kv => P (EdgeDetail.from_node (snd kv)) /\ P (EdgeDetail.to_node (snd kv)))
    (fold_left run_call cs d).
Proof.
  intros Hcs. revert d. induction Hcs as [|c cs Hc _ IH]; intros d Hd; simpl; [exact Hd|].
  apply IH. rewrite run_call_registers. apply dict_set_Forall; [exact Hc|exact Hd].
Qed.

(** C8.  In the graph listing, in either arithmetic, every edge's from_node
    and to_node is the id of a node of the returned nodes list. *)
Theorem C8_listing_referential_integrity :
  forall (F : Type) (PF : PyFloat F),
    let payload := @get_demo_graph F PF in
    let node_ids := map GraphNode.id (GraphPayload.nodes payload) in
    Forall (fun e : GraphEdge.t F =>
              In (GraphEdge.from_node e) node_ids /\ In (GraphEdge.to_node e) node_ids)
      (GraphPayload.edges payload).
Proof.
  intros F PF payload node_ids. subst payload node_ids.
  unfold get_demo_graph. rewrite listing_edges.
  cbn [get_demo_graph_of GraphPayload.nodes].
  unfold dict_values. rewrite map_map, Forall_map. cbn [project GraphEdge.from_node
    GraphEdge.to_node].
  apply (after_calls_endpoints register_edge_calls []
           (fun s => In s (map GraphNode.id NODES))); [|constructor].
  repeat (apply Forall_cons; [split; apply mem_In; reflexivity|]).
  apply Forall_nil.
Qed.

(** C9.  For every registered edge id, in either arithmetic, the lookup
    returns a detail, the listing holds exactly one brief edge with that id,
    and that brief edge is the projection of the detail: same id, from_node,
    to_node, status and ParamSummary, the evidence list being the only thing
    left out. *)
Theorem C9_brief_edge_is_projection :
  forall (F : Type) (PF : PyFloat F) (edgeId : string),
    In edgeId registered_ids ->
    exists (ed : EdgeDetail.t F) (g : GraphEdge.t F),
      get_edge_detail edgeId = Return ed /\
      filter (fun g' => String.eqb (GraphEdge.id g') edgeId)
        (GraphPayload.edges get_demo_graph) = [g] /\
      g = project ed /\
      GraphEdge.id g = EdgeDetail.id ed /\
      GraphEdge.from_node g = EdgeDetail.from_node ed /\
      GraphEdge.to_node g = EdgeDetail.to_node ed /\
      GraphEdge.status g = EdgeDetail.status ed /\
      GraphEdge.param g = EdgeDetail.param ed.
Proof.
  intros F PF edgeId Hin.
  apply in_map_iff in Hin as [c [<- Hc]].
  pose proof (get_registered c Hc) as G.
  exists (registered_detail c), (project (registered_detail c)).
  split; [exact G|]. split; [|repeat split].
  unfold get_demo_graph. rewrite listing_edges.
  apply listing_entry; [apply EDGES_NoDup|apply EDGES_keyed|].
  unfold get_edge_detail, get_edge_detail_of in G.
  destruct (dict_get (Call.edge_id c) EDGES); [|discriminate].
  now injection G as ->.
Qed.

Lemma C9_brief_edge_witness :
  In "positive_affect->state_anxiety" registered_ids /\
  exists (ed : EdgeDetail.t B64.t) (g : GraphEdge.t B64.t),
    get_edge_detail "positive_affect->state_anxiety" = Return ed /\
    filter (fun g' => String.eqb (GraphEdge.id g') "positive_affect->state_anxiety")
      (GraphPayload.edges get_demo_graph) = [g] /\
    g = project ed /\
    GraphEdge.id g = EdgeDetail.id ed /\
    GraphEdge.from_node g = EdgeDetail.from_node ed /\
    GraphEdge.to_node g = EdgeDetail.to_node ed /\
    GraphEdge.status g = EdgeDetail.status ed /\
    GraphEdge.param g = EdgeDetail.param ed.
Proof.
  assert (Hin : In "positive_affect->state_anxiety" registered_ids)
    by (apply mem_In; reflexivity).
  split; [exact Hin|].
  exact (C9_brief_edge_is_projection B64.t B64_PyFloat _ Hin).
Defined.

(* ------------------------------------------------------------------ *)
(** ** Further properties: the store and its two routes *)
(* ------------------------------------------------------------------ *)

Section DictOrder.
Context {V : Type}.
Implicit Types (d : dict V) (k : string) (v : V).

Lemma dict_set_set k v v' d : dict_set k v (dict_set k v' d) = dict_set k v d.
Proof.
  induction d as [|[k0 v0] d IH]; simpl.
  - now rewrite String.eqb_refl.
  - destruct (String.eqb k0 k) eqn:E; simpl; rewrite E; [reflexivity|].
    now rewrite IH.
Qed.

Lemma dict_keys_set_order k v d :
  dict_keys (dict_set k v d) =
  if existsb (String.eqb k) (dict_keys d) then dict_keys d
  else (dict_keys d ++ [k])%list.
Proof.
  induction d as [|[k0 v0] d IH]; simpl; [reflexivity|].
  rewrite (String.eqb_sym k k0).
  destruct (String.eqb k0 k) eqn:E; simpl.
  - apply String.eqb_eq in E. now subst.
  - rewrite IH. now destruct (existsb (String.eqb k) (dict_keys d)).
Qed.

Lemma dict_values_by_key (dflt : V) d :
  NoDup (dict_keys d) ->
  dict_values d =
  map (fun k => match dict_get k d with Some v => v | None => dflt end) (dict_keys d).
Proof.
  induction d as [|[k0 v0] d IH]; simpl; intros ND; [reflexivity|].
  inversion ND as [|? ? Hn Hd]; subst.
  rewrite String.eqb_refl. f_equal.
  rewrite (IH Hd). unfold dict_keys. apply map_ext_in.
  intros k Hk. destruct (String.eqb k0 k) eqn:E; [|reflexivity].
  apply String.eqb_eq in E; subst. contradiction.
Qed.

Lemma dict_get_Some_key k v d : dict_get k d = Some v -> In k (dict_keys d).
Proof.
  intros G. apply dict_get_In in G. unfold dict_keys.
  apply in_map_iff. now exists (k, v).
Qed.

Lemma dict_In_get k v d : NoDup (dict_keys d) -> In (k, v) d -> dict_get k d = Some v.
Proof.
  induction d as [|[k0 v0] d IH]; simpl; intros ND Hin; [contradiction|].
  inversion ND as [|? ? Hn Hd]; subst.
  destruct Hin as [E|Hin].
  - injection E as -> ->. now rewrite String.eqb_refl.
  - destruct (String.eqb k0 k) eqn:E; [|now apply IH].
    apply String.eqb_eq in E; subst. exfalso. apply Hn.
    unfold dict_keys. apply in_map_iff. now exists (k, v).
Qed.
End DictOrder.

Lemma first_seen_fresh (seen ids : list string) (k : string) :
  In k (first_seen seen ids) -> ~ In k seen.
Proof.
  revert seen. induction ids as [|i r IH]; intros seen; simpl; [intros []|].
  destruct (existsb (String.eqb i) seen) eqn:E.
  - apply IH.
  - intros [->|Hin].
    + intros Hs. assert (existsb (String.eqb k) seen = true); [|congruence].
      apply existsb_exists. exists k. split; [assumption|apply String.eqb_refl].
    + intros Hs. apply (IH _ Hin). apply in_or_app. now left.
Qed.

Section StoreOrder.
Context {F : Type} `{PyFloat F}.

Lemma keys_after_calls_order (cs : list Call.t) (d : dict (EdgeDetail.t F)) :
  dict_keys (fold_left run_call cs d) =
  (dict_keys d ++ first_seen (dict_keys d) (map Call.edge_id cs))%list.
Proof.
  revert d. induction cs as [|c cs IH]; intros d; simpl.
  - now rewrite app_nil_r.
  - rewrite IH, run_call_registers, dict_keys_set_order.
    destruct (existsb (String.eqb (Call.edge_id c)) (dict_keys d)); [reflexivity|].
    now rewrite <- app_assoc.
Qed.

Lemma after_calls_Forall (P : EdgeDetail.t F -> Prop) (cs : list Call.t)
    (d : dict (EdgeDetail.t F)) :
  Forall (fun c => P (registered_detail c)) cs ->
  Forall (fun kv => P (snd kv)) d ->
  Forall (fun kv => P (snd kv)) (fold_left run_call cs d).
Proof.
  revert d. induction cs as [|c cs IH]; intros d Pc Pd; simpl; [exact Pd|].
  inversion Pc; subst. apply IH; [assumption|].
  rewrite run_call_registers. apply dict_set_Forall; assumption.
Qed.

Lemma built_by_NoDup (cs : list Call.t) : NoDup (dict_keys (built_by (F := F) cs)).
Proof. apply calls_keep_NoDup. constructor. Qed.

Lemma built_by_keyed (cs : list Call.t) : keyed_by_id (built_by (F := F) cs).
Proof. apply calls_keep_keyed. constructor. Qed.

Lemma listing_ids (d : dict (EdgeDetail.t F)) :
  keyed_by_id d -> edge_ids (get_demo_graph_of d) = dict_keys d.
Proof.
  intros K. unfold edge_ids. rewrite listing_edges.
  unfold dict_values, dict_keys. rewrite !map_map.
  apply map_ext_in. intros [k v] Hin.
  unfold keyed_by_id in K. rewrite Forall_forall in K. exact (K _ Hin).
Qed.

Lemma listing_lookup (d : dict (EdgeDetail.t F)) (g : GraphEdge.t F) :
  NoDup (dict_keys d) -> keyed_by_id d ->
  In g (GraphPayload.edges (get_demo_graph_of d)) <->
  exists ed, get_edge_detail_of d (GraphEdge.id g) = Return ed /\ g = project ed.
Proof.
  intros ND K. rewrite listing_edges. unfold get_edge_detail_of. split.
  - intros Hin. unfold dict_values in Hin. rewrite map_map in Hin.
    apply in_map_iff in Hin as [[k v] [<- Hin]]. simpl.
    exists v. split; [|reflexivity].
    unfold keyed_by_id in K. rewrite Forall_forall in K.
    pose proof (K _ Hin) as Kk. simpl in Kk.
    cbn [project GraphEdge.id]. rewrite Kk.
    now rewrite (dict_In_get _ _ _ ND Hin).
  - intros [ed [G ->]].
    destruct (dict_get _ d) as [ed'|] eqn:E; [|discriminate].
    injection G as ->. apply dict_get_In in E.
    unfold dict_values. rewrite map_map. apply in_map_iff.
    eexists. split; [|exact E]. reflexivity.
Qed.
End StoreOrder.

(** X1.  Registering an edge and then asking for an id: the id just
    registered gives back the detail built from the arguments (its interval
    from [p] with the default width 1.96, a missing evidence list stored as
    the empty list), whatever the store held before; every other id answers
    as it did before the registration. *)
Theorem X1_register_edge_then_lookup (F : Type) (PF : PyFloat F)
    (d : dict (EdgeDetail.t F)) (edge_id from_node to_node : string) (mean sd : F)
    (status : string) (evidence : option (list EvidenceItem.t)) (k : string) :
  get_edge_detail_of
    (register_edge edge_id from_node to_node mean sd status evidence d) k =
  if String.eqb edge_id k
  then Return (EdgeDetail.mk edge_id from_node to_node status
                 (ParamSummary.mk mean sd (mean - #1.96 * sd) (mean + #1.96 * sd))
                 (match evidence with Some items => items | None => [] end))
  else get_edge_detail_of d k.
Proof.
  unfold get_edge_detail_of, register_edge. rewrite dict_get_set.
  destruct (String.eqb edge_id k); [|reflexivity].
  destruct evidence; reflexivity.
Qed.

(** X2.  Where a registration lands in the store: an id already present keeps
    its place and the store its size; a new id goes to the end.  The ids held
    before stay in their order. *)
Theorem X2_register_edge_position (F : Type) (PF : PyFloat F)
    (d : dict (EdgeDetail.t F)) (edge_id from_node to_node : string) (mean sd : F)
    (status : string) (evidence : option (list EvidenceItem.t)) :
  dict_keys (register_edge edge_id from_node to_node mean sd status evidence d) =
  if existsb (String.eqb edge_id) (dict_keys d) then dict_keys d
  else (dict_keys d ++ [edge_id])%list.
Proof. unfold register_edge. apply dict_keys_set_order. Qed.

(** X3.  Registering an id a second time replaces the first registration
    without a trace: the store is the one the second call alone would have
    produced.  No error is raised and no duplicate is kept. *)
Theorem X3_register_edge_overwrites (F : Type) (PF : PyFloat F)
    (d : dict (EdgeDetail.t F)) (edge_id : string)
    (from_node to_node : string) (mean sd : F)
    (status : string) (evidence : option (list EvidenceItem.t))
    (from_node' to_node' : string) (mean' sd' : F)
    (status' : string) (evidence' : option (list EvidenceItem.t)) :
  register_edge edge_id from_node to_node mean sd status evidence
    (register_edge edge_id from_node' to_node' mean' sd' status' evidence' d) =
  register_edge edge_id from_node to_node mean sd status evidence d.
Proof. unfold register_edge. apply dict_set_set. Qed.

(** X4.  The listing after any sequence of registrations from the empty
    store: the nodes are [NODES]; the edges come one per distinct id, in the
    order in which the ids were first registered; and each is the brief form
    of what the last call for its id registered. *)
Theorem X4_listing_after_calls (F : Type) (PF : PyFloat F) (cs : list Call.t) :
  let g := get_demo_graph_of (built_by (F := F) cs) in
  GraphPayload.nodes g = NODES /\
  edge_ids g = first_seen [] (map Call.edge_id cs) /\
  Forall (fun e => exists c, last_call (GraphEdge.id e) cs = Some c /\
                             e = project (registered_detail c))
    (GraphPayload.edges g).
Proof.
  cbv zeta. split; [reflexivity|]. split.
  - rewrite listing_ids by apply built_by_keyed.
    unfold built_by. now rewrite keys_after_calls_order.
  - apply Forall_forall. intros e He.
    apply listing_lookup in He as [ed [G ->]];
      [|apply built_by_NoDup|apply built_by_keyed].
    unfold get_edge_detail_of, built_by in G. rewrite get_after_calls in G.
    unfold last_call.
    destruct (find _ (rev cs)) as [c|]; [|discriminate].
    exists c. split; [reflexivity|]. now injection G as <-.
Qed.

(** X5.  [register_edge] keeps the invariant of the store: if the ids are
    pairwise distinct and every entry is filed under its own id, the same
    holds after the call. *)
Theorem X5_register_edge_keeps_invariant (F : Type) (PF : PyFloat F)
    (d : dict (EdgeDetail.t F)) (edge_id from_node to_node : string) (mean sd : F)
    (status : string) (evidence : option (list EvidenceItem.t)) :
  NoDup (dict_keys d) -> keyed_by_id d ->
  NoDup (dict_keys (register_edge edge_id from_node to_node mean sd status evidence d)) /\
  keyed_by_id (register_edge edge_id from_node to_node mean sd status evidence d).
Proof.
  intros ND K. unfold register_edge. split.
  - now apply dict_keys_set_NoDup.
  - apply dict_set_Forall; [reflexivity|exact K].
Qed.

Lemma X5_register_edge_keeps_invariant_witness :
  NoDup (dict_keys two_edge_store) /\ keyed_by_id two_edge_store /\
  NoDup (dict_keys (register_edge "wood_coverage->perceived_warmth" "a" "b"
                      0.5%Q 0.1%Q "hypothesized" None two_edge_store)) /\
  keyed_by_id (register_edge "wood_coverage->perceived_warmth" "a" "b"
                 0.5%Q 0.1%Q "hypothesized" None two_edge_store).
Proof.
  assert (ND : NoDup (dict_keys two_edge_store)).
  { repeat constructor; simpl; intuition discriminate. }
  assert (K : keyed_by_id two_edge_store) by (repeat constructor).
  split; [exact ND|]. split; [exact K|].
  exact (X5_register_edge_keeps_invariant Q Q_PyFloat two_edge_store
           "wood_coverage->perceived_warmth" "a" "b" 0.5%Q 0.1%Q "hypothesized" None ND K).
Defined.

(** X6.  In any store whose ids are distinct and whose entries are filed
    under their own ids, the two routes agree: the listing shows the ids of
    the store in store order; an edge is listed exactly when the lookup of its
    id returns a detail of which it is the brief form; and the lookup raises
    404 exactly for the ids the listing does not show. *)
Theorem X6_listing_agrees_with_lookup (F : Type) (PF : PyFloat F)
    (d : dict (EdgeDetail.t F)) :
  NoDup (dict_keys d) -> keyed_by_id d ->
  edge_ids (get_demo_graph_of d) = dict_keys d /\
  (forall g : GraphEdge.t F,
      In g (GraphPayload.edges (get_demo_graph_of d)) <->
      exists ed, get_edge_detail_of d (GraphEdge.id g) = Return ed /\ g = project ed) /\
  (forall k : string,
      get_edge_detail_of d k = Raise (mkHTTPException 404 "Edge not found") <->
      ~ In k (edge_ids (get_demo_graph_of d))).
Proof.
  intros ND K. split; [now apply listing_ids|]. split.
  - intros g. now apply listing_lookup.
  - intros k. rewrite listing_ids by exact K. rewrite <- dict_get_None.
    unfold get_edge_detail_of. destruct (dict_get k d); split; congruence.
Qed.

Lemma X6_listing_agrees_with_lookup_witness :
  NoDup (dict_keys two_edge_store) /\ keyed_by_id two_edge_store /\
  edge_ids (get_demo_graph_of two_edge_store) =
    ["wood_coverage->perceived_warmth"; "wood_coverage->perceived_naturalness"] /\
  get_edge_detail_of two_edge_store "plant_density->positive_affect"
    = Raise (mkHTTPException 404 "Edge not found").
Proof.
  assert (ND : NoDup (dict_keys two_edge_store)).
  { repeat constructor; simpl; intuition discriminate. }
  assert (K : keyed_by_id two_edge_store) by (repeat constructor).
  split; [exact ND|]. split; [exact K|].
  destruct (X6_listing_agrees_with_lookup Q Q_PyFloat two_edge_store ND K)
    as (Ids & _ & Miss).
  split; [exact Ids|].
  apply Miss. rewrite Ids. simpl. intuition discriminate.
Defined.

(* ------------------------------------------------------------------ *)
(** ** Further properties: the interval helper [p] *)
(* ------------------------------------------------------------------ *)

(** X7.  Over the rationals, for any width factor: [p] puts the interval
    symmetrically around the mean, of total width 2 * ci_width * sd; it
    brackets the mean exactly when ci_width * sd is not negative.  A negative
    sd is not rejected: it gives an interval whose lower bound lies above its
    upper bound. *)
Theorem X7_p_interval_Q (mean sd ci_width : Q) :
  let ps := p mean sd ci_width in
  (ParamSummary.ci_upper ps - mean == mean - ParamSummary.ci_lower ps)%Q /\
  (ParamSummary.ci_upper ps - ParamSummary.ci_lower ps == 2 * ci_width * sd)%Q /\
  ((0 <= ci_width * sd)%Q <->
   (ParamSummary.ci_lower ps <= mean)%Q /\ (mean <= ParamSummary.ci_upper ps)%Q) /\
  ((ci_width * sd < 0)%Q <->
   (ParamSummary.ci_upper ps < ParamSummary.ci_lower ps)%Q).
Proof.
  cbv zeta. unfold p.
  cbn [ParamSummary.mean ParamSummary.sd ParamSummary.ci_lower ParamSummary.ci_upper
       lit fadd fsub fmul Q_PyFloat].
  repeat split; intros; try ring; try lra.
Qed.

Section PIntervalB64.
Local Open Scope Z_scope.

Lemma mul_finite_not_nan x y :
  valid64 x = true -> valid64 y = true ->
  is_finite x = true -> is_finite y = true ->
  is_nan (SFmul 53 1024 x y) = false.
Proof.
  intros Vx Vy Fx Fy.
  destruct x as [sx|sx| |sx mx ex], y as [sy|sy| |sy my ey];
    try discriminate; try reflexivity.
  cbn [valid_binary] in Vx, Vy. cbn [SFmul].
  pose proof (bounded_facts mx ex Vx) as (Hx & Dx & Nx).
  pose proof (bounded_facts my ey Vy) as (Hy & Dy & Ny).
  pose proof (digits_mul mx my) as Dm.
  pose proof (digits_pos mx). pose proof (digits_pos my).
  pose proof (bra_spec (xorb sx sy) (mx * my) (ex + ey)) as S. cbv zeta in S.
  assert (Hn : 0 <= fexp64 (digits (mx * my) + (ex + ey)) - (ex + ey)).
  { rewrite fexp64_eq.
    destruct (Z_le_gt_dec (ex + ey) (-1074)); [lia|].
    destruct (Z.eq_dec ex (-1074)).
    - assert (digits my = 53) by (apply Ny; lia). lia.
    - assert (digits mx = 53) by (apply Nx; lia). lia. }
  specialize (S Hn). destruct S as (m'' & _ & _ & V & Cases).
  destruct Cases as [[-> _]|[(mr & er & -> & _)|(-> & _)]]; reflexivity.
Qed.

Lemma sub_finite_left_not_nan x y :
  valid64 x = true -> valid64 y = true ->
  is_finite x = true -> is_nan y = false ->
  is_nan (SFsub 53 1024 x y) = false.
Proof.
  intros Vx Vy Fx Ny.
  destruct (is_finite y) eqn:Fy.
  - now apply (sub_spec x y Vx Vy).
  - destruct x, y; try discriminate; reflexivity.
Qed.

Lemma add_finite_left_not_nan x y :
  valid64 x = true -> valid64 y = true ->
  is_finite x = true -> is_nan y = false ->
  is_nan (SFadd 53 1024 x y) = false.
Proof.
  intros Vx Vy Fx Ny.
  destruct (is_finite y) eqn:Fy.
  - now apply (add_spec x y Vx Vy).
  - destruct x, y; try discriminate; reflexivity.
Qed.

Lemma finite_not_nan x : is_finite x = true -> is_nan x = false.
Proof. destruct x; simpl; congruence. Qed.
End PIntervalB64.

(** X8.  In binary64, for finite doubles with sd and the width factor not
    negative, the interval [p] returns brackets the mean: the rounded
    ci_lower is at most the mean and the rounded ci_upper at least the mean,
    also when ci_width * sd overflows. *)
Theorem X8_p_brackets_mean_B64 (mean sd ci_width : B64.t) :
  valid64 mean = true -> valid64 sd = true -> valid64 ci_width = true ->
  is_finite mean = true -> is_finite sd = true -> is_finite ci_width = true ->
  B64.leb zero64 sd = true -> B64.leb zero64 ci_width = true ->
  B64.leb (ParamSummary.ci_lower (p mean sd ci_width)) mean = true /\
  B64.leb mean (ParamSummary.ci_upper (p mean sd ci_width)) = true.
Proof.
  intros Vm Vs Vc Fm Fs Fc Ls Lc.
  unfold p. cbn [ParamSummary.ci_lower ParamSummary.ci_upper].
  cbn [fadd fsub fmul B64_PyFloat].
  unfold B64.leb, B64.add, B64.sub, B64.mul, B64.prec, B64.emax in *.
  pose proof (finite_not_nan _ Fm) as Nm.
  pose proof (finite_not_nan _ Fs) as Ns.
  pose proof (finite_not_nan _ Fc) as Nc.
  assert (Vz : valid64 zero64 = true) by reflexivity.
  assert (Nz : is_nan zero64 = false) by reflexivity.
  apply (leb_ord _ _ Vz Vs Nz Ns) in Ls.
  apply (leb_ord _ _ Vz Vc Nz Nc) in Lc.
  change (ord zero64) with 0%Z in Ls, Lc.
  pose proof (mul_spec ci_width sd Vc Vs) as [Vp Op]. cbv zeta in Vp, Op.
  pose proof (mul_finite_not_nan _ _ Vc Vs Fc Fs) as Np.
  specialize (Op Np Lc Ls).
  set (h := SFmul 53 1024 ci_width sd) in *. clearbody h.
  pose proof (sub_spec mean h Vm Vp) as (Vl & _ & Sl). cbv zeta in Vl, Sl.
  pose proof (add_spec mean h Vm Vp) as (Vu & _ & Su). cbv zeta in Vu, Su.
  pose proof (sub_finite_left_not_nan _ _ Vm Vp Fm Np) as Nl.
  pose proof (add_finite_left_not_nan _ _ Vm Vp Fm Np) as Nu.
  destruct (Sl Nl) as (_ & _ & Hl & _). destruct (Su Nu) as (_ & _ & Hu & _).
  split.
  - apply (leb_ord _ _ Vl Vm Nl Nm). now apply Hl.
  - apply (leb_ord _ _ Vm Vu Nm Nu). now apply Hu.
Qed.

Lemma X8_p_brackets_mean_B64_witness :
  B64.leb (ParamSummary.ci_lower (p (#0.45 : B64.t) #0.10 #1.96)) #0.45 = true /\
  B64.leb (#0.45 : B64.t) (ParamSummary.ci_upper (p #0.45 #0.10 #1.96)) = true.
Proof.
  apply (X8_p_brackets_mean_B64 #0.45 #0.10 #1.96); vm_compute; reflexivity.
Defined.

(* ------------------------------------------------------------------ *)
(** ** Further properties: the shape of the registered graph *)
(* ------------------------------------------------------------------ *)

Lemma demo_endpoints {F} `{PyFloat F} :
  endpoints (get_demo_graph (F := F)) =
  map (fun c => (Call.from_node c, Call.to_node c)) register_edge_calls.
Proof.
  unfold endpoints, get_demo_graph. rewrite listing_edges.
  vm_compute. reflexivity.
Qed.

Lemma reaches_rank (E : list (string * string)) (rank : string -> nat) :
  Forall (fun ab => rank (fst ab) < rank (snd ab))%nat E ->
  forall a b, reaches E a b -> (rank a < rank b)%nat.
Proof.
  intros FE a b R. rewrite Forall_forall in FE.
  induction R as [a b Hab|a b c Hab _ IH].
  - exact (FE _ Hab).
  - pose proof (FE _ Hab) as L. simpl in L. lia.
Qed.

Lemma forallb_Forall {A} (f : A -> bool) (P : A -> Prop) (l : list A) :
  (forall x, f x = true -> P x) -> forallb f l = true -> Forall P l.
Proof.
  intros FP Hl. apply Forall_forall. intros x Hx.
  rewrite forallb_forall in Hl. auto.
Qed.

(** X9.  The registered graph has no cycle: every edge leads from a node to
    one declared later in [NODES], so no path of edges leads from a node back
    to itself (in particular no edge joins a node to itself). *)
Theorem X9_demo_graph_acyclic (F : Type) (PF : PyFloat F) :
  Forall (fun ab => node_rank (fst ab) < node_rank (snd ab))%nat
    (endpoints (get_demo_graph (F := F))) /\
  forall a : string, ~ reaches (endpoints (get_demo_graph (F := F))) a a.
Proof.
  assert (FE : Forall (fun ab => node_rank (fst ab) < node_rank (snd ab))%nat
                 (endpoints (get_demo_graph (F := F)))).
  { rewrite demo_endpoints.
    apply (forallb_Forall (fun ab => Nat.ltb (node_rank (fst ab)) (node_rank (snd ab)))).
    - intros x. apply Nat.ltb_lt.
    - vm_compute. reflexivity. }
  split; [exact FE|].
  intros a R. apply (reaches_rank _ _ FE) in R. lia.
Qed.

Lemma edge_from_In (E : list (string * string)) (a : string) :
  existsb (fun ab => String.eqb (fst ab) a) E = true -> exists b, In (a, b) E.
Proof.
  intros X. apply existsb_exists in X as [[a' b] [Hin Ea]].
  apply String.eqb_eq in Ea. simpl in Ea. subst. now exists b.
Qed.

Lemma edge_to_In (E : list (string * string)) (b : string) :
  existsb (fun ab => String.eqb (snd ab) b) E = true -> exists a, In (a, b) E.
Proof.
  intros X. apply existsb_exists in X as [[a b'] [Hin Eb]].
  apply String.eqb_eq in Eb. simpl in Eb. subst. now exists a.
Qed.

(** X10.  The registered graph is layered: no edge enters an attribute node,
    an edge that leaves an attribute node ends at a mediator, and an edge
    that leaves an outcome node ends at an outcome node; every attribute node
    has an outgoing edge and every mediator and outcome node an incoming
    one. *)
Theorem X10_demo_graph_layered (F : Type) (PF : PyFloat F) :
  let E := endpoints (get_demo_graph (F := F)) in
  (forall a b : string, In (a, b) E ->
      exists la lb : string,
        level_of a = Some la /\ level_of b = Some lb /\
        lb <> "attribute" /\
        (la = "attribute" -> lb = "mediator") /\
        (la = "outcome" -> lb = "outcome")) /\
  Forall (fun n : GraphNode.t =>
            if String.eqb (GraphNode.level n) "attribute"
            then exists b : string, In (GraphNode.id n, b) E
            else exists a : string, In (a, GraphNode.id n) E)
    NODES.
Proof.
  cbv zeta. rewrite demo_endpoints. split.
  - intros a b Hin. simpl in Hin.
    repeat (destruct Hin as [Hin|Hin];
            [injection Hin as <- <-; do 2 eexists;
             split; [reflexivity|]; split; [reflexivity|];
             split; [discriminate|]; split; intros; (discriminate || reflexivity)|]).
    contradiction.
  - set (E := map _ register_edge_calls).
    apply (forallb_Forall
             (fun n => if String.eqb (GraphNode.level n) "attribute"
                       then existsb (fun ab => String.eqb (fst ab) (GraphNode.id n)) E
                       else existsb (fun ab => String.eqb (snd ab) (GraphNode.id n)) E)).
    + intros n. destruct (String.eqb (GraphNode.level n) "attribute").
      * apply edge_from_In.
      * apply edge_to_In.
    + vm_compute. reflexivity.
Qed.

Lemma NoDup_nodupb (l : list string) : nodupb l = true -> NoDup l.
Proof.
  induction l as [|x r IH]; intros E; [constructor|].
  apply andb_true_iff in E as [Ex Er]. constructor; [|now apply IH].
  intros Hin. apply negb_true_iff in Ex.
  assert (existsb (String.eqb x) r = true); [|congruence].
  apply existsb_exists. exists x. split; [assumption|apply String.eqb_refl].
Qed.

(** X11.  Identifiers of the registered graph: the node ids are pairwise
    distinct; every edge id is its source id, the two characters [->], and
    its target id; so the listing holds at most one edge per ordered pair of
    nodes, and the id of an edge can be computed from its endpoints. *)
Theorem X11_demo_graph_identifiers (F : Type) (PF : PyFloat F) :
  NoDup (map GraphNode.id NODES) /\
  Forall (fun e : GraphEdge.t F =>
            GraphEdge.id e = GraphEdge.from_node e ++ "->" ++ GraphEdge.to_node e)
    (GraphPayload.edges (get_demo_graph (F := F))) /\
  NoDup (edge_ids (get_demo_graph (F := F))) /\
  (forall e e' : GraphEdge.t F,
      In e (GraphPayload.edges (get_demo_graph (F := F))) ->
      In e' (GraphPayload.edges (get_demo_graph (F := F))) ->
      GraphEdge.from_node e = GraphEdge.from_node e' ->
      GraphEdge.to_node e = GraphEdge.to_node e' -> e = e').
Proof.
  assert (Fmt : Forall (fun e : GraphEdge.t F =>
            GraphEdge.id e = GraphEdge.from_node e ++ "->" ++ GraphEdge.to_node e)
    (GraphPayload.edges (get_demo_graph (F := F)))).
  { unfold get_demo_graph. rewrite listing_edges.
    unfold dict_values. rewrite map_map. apply Forall_map.
    apply (after_calls_Forall
             (fun ed => EdgeDetail.id ed
                        = EdgeDetail.from_node ed ++ "->" ++ EdgeDetail.to_node ed));
      [|constructor].
    repeat (apply Forall_cons; [reflexivity|]). constructor. }
  assert (Ids : NoDup (edge_ids (get_demo_graph (F := F)))).
  { unfold get_demo_graph. rewrite listing_ids by apply EDGES_keyed. apply EDGES_NoDup. }
  split; [apply NoDup_nodupb; vm_compute; reflexivity|].
  split; [exact Fmt|]. split; [exact Ids|].
  intros e e' He He' Ef Et.
  rewrite Forall_forall in Fmt.
  assert (Ei : GraphEdge.id e = GraphEdge.id e').
  { rewrite (Fmt _ He), (Fmt _ He'). congruence. }
  revert He He' Ei. unfold get_demo_graph.
  intros He He' Ei.
  apply (listing_lookup _ _ EDGES_NoDup EDGES_keyed) in He as [ed [G ->]].
  apply (listing_lookup _ _ EDGES_NoDup EDGES_keyed) in He' as [ed' [G' ->]].
  rewrite Ei in G. congruence.
Qed.

(* ------------------------------------------------------------------ *)
(** ** Further properties: the prediction engine over the rationals *)
(* ------------------------------------------------------------------ *)



Lemma favourable_unfold (request request' : PredictRequest.t Q) :
  favourable request request' ->
  (w request <= w request')%Q /\ (plants request <= plants request')%Q /\
  (clutter request' <= clutter request)%Q /\ (glare request' <= glare request)%Q.
Proof. intros H. exact H. Qed.

(** X13.  Model A moves with its inputs in the expected direction: a request
    with no less wood and plants and no more clutter and glare gets no lower
    warmth, naturalness, positive affect and task performance, and no higher
    cognitive load, anxiety and stress. *)
Theorem X13_model_a_monotone (request request' : PredictRequest.t Q) :
  favourable request request' ->
  Forall2 (fun (up : bool) (xy : Q * Q) => no_worse up (fst xy) (snd xy))
    higher_is_better
    (combine (means (PredictResponse.model_a (predict request)))
             (means (PredictResponse.model_a (predict request')))).
Proof.
  intros Fv. apply favourable_unfold in Fv as (Hw & Hp & Hc & Hg).
  rewrite !means_model_a. unfold higher_is_better. cbn [combine].
  repeat (apply Forall2_cons;
          [cbn [no_worse fst snd]; apply clip01_Q_mono;
           unfold task_performance, perceived_stress, state_anxiety, positive_affect,
             cognitive_load, perceived_naturalness, perceived_warmth;
           cbn [lit fadd fsub fmul Q_PyFloat]; lra|]).
  apply Forall2_nil.
Qed.

Lemma X13_model_a_monotone_witness :
  favourable zero_request_Q leafy_request_Q /\
  Forall2 (fun (up : bool) (xy : Q * Q) => no_worse up (fst xy) (snd xy))
    higher_is_better
    (combine (means (PredictResponse.model_a (predict zero_request_Q)))
             (means (PredictResponse.model_a (predict leafy_request_Q)))).
Proof.
  assert (Fv : favourable zero_request_Q leafy_request_Q).
  { unfold favourable; simpl; repeat split; lra. }
  split; [exact Fv|].
  exact (X13_model_a_monotone zero_request_Q leafy_request_Q Fv).
Defined.

Lemma Qmult_le_mono_nonneg (a a' b b' : Q) :
  (0 <= a)%Q -> (a <= a')%Q -> (0 <= b)%Q -> (b <= b')%Q -> (a * b <= a' * b')%Q.
Proof.
  intros A0 A B0 B.
  apply Qle_trans with (a' * b)%Q.
  - apply Qmult_le_compat_r; assumption.
  - rewrite (Qmult_comm a' b), (Qmult_comm a' b').
    apply Qmult_le_compat_r; [assumption|lra].
Qed.

Lemma synergy_Q_mono (request request' : PredictRequest.t Q) :
  (0 <= w request)%Q -> (0 <= plants request)%Q ->
  (w request <= w request')%Q -> (plants request <= plants request')%Q ->
  (synergy request <= synergy request')%Q.
Proof.
  intros W0 P0 Hw Hp. unfold synergy. cbn [lit fmul Q_PyFloat].
  pose proof (Qmult_le_mono_nonneg _ _ _ _ W0 Hw P0 Hp) as M.
  rewrite <- !Qmult_assoc. apply Qmult_le_l; [reflexivity|exact M].
Qed.

(** X14.  Model B moves in the same directions, as long as wood coverage and
    plant density are not negative (the interaction term is their product). *)
Theorem X14_model_b_monotone (request request' : PredictRequest.t Q) :
  (0 <= PredictRequest.wood_coverage request)%Q ->
  (0 <= PredictRequest.plant_density request)%Q ->
  favourable request request' ->
  Forall2 (fun (up : bool) (xy : Q * Q) => no_worse up (fst xy) (snd xy))
    higher_is_better
    (combine (means (PredictResponse.model_b (predict request)))
             (means (PredictResponse.model_b (predict request')))).
Proof.
  intros W0 P0 Fv. apply favourable_unfold in Fv as (Hw & Hp & Hc & Hg).
  pose proof (synergy_Q_mono request request' W0 P0 Hw Hp) as Hs.
  rewrite !means_model_b. unfold higher_is_better. cbn [combine].
  assert (Hcl : (cognitive_load request' <= cognitive_load request)%Q).
  { unfold cognitive_load. cbn [lit fadd fsub fmul Q_PyFloat]. lra. }
  assert (Hpn : (perceived_naturalness request <= perceived_naturalness request')%Q).
  { unfold perceived_naturalness. cbn [lit fadd fsub fmul Q_PyFloat]. lra. }
  assert (Hpa : (positive_affect_b request <= positive_affect_b request')%Q).
  { unfold positive_affect_b. apply clip01_Q_mono.
    set (s := synergy request) in *. set (s' := synergy request') in *.
    clearbody s s'.
    unfold positive_affect, cognitive_load, perceived_naturalness, perceived_warmth.
    cbn [lit fadd fsub fmul Q_PyFloat]. lra. }
  assert (Hsa : (state_anxiety_b request' <= state_anxiety_b request)%Q).
  { unfold state_anxiety_b. apply clip01_Q_mono.
    cbn [lit fadd fsub fmul Q_PyFloat]. lra. }
  apply Forall2_cons.
  { cbn [no_worse fst snd]. apply clip01_Q_mono. unfold perceived_warmth.
    cbn [lit fadd fsub fmul Q_PyFloat]. lra. }
  apply Forall2_cons.
  { cbn [no_worse fst snd]. now apply clip01_Q_mono. }
  apply Forall2_cons.
  { cbn [no_worse fst snd]. now apply clip01_Q_mono. }
  apply Forall2_cons; [exact Hpa|].
  apply Forall2_cons; [exact Hsa|].
  apply Forall2_cons.
  { cbn [no_worse fst snd]. unfold perceived_stress_b. apply clip01_Q_mono.
    cbn [lit fadd fsub fmul Q_PyFloat]. lra. }
  apply Forall2_cons.
  { cbn [no_worse fst snd]. unfold task_performance_b. apply clip01_Q_mono.
    cbn [lit fadd fsub fmul Q_PyFloat]. lra. }
  apply Forall2_nil.
Qed.

Lemma X14_model_b_monotone_witness :
  favourable leafy_request_Q lush_request_Q /\
  Forall2 (fun (up : bool) (xy : Q * Q) => no_worse up (fst xy) (snd xy))
    higher_is_better
    (combine (means (PredictResponse.model_b (predict leafy_request_Q)))
             (means (PredictResponse.model_b (predict lush_request_Q)))).
Proof.
  assert (Fv : favourable leafy_request_Q lush_request_Q).
  { unfold favourable; simpl; repeat split; lra. }
  split; [exact Fv|].
  apply (X14_model_b_monotone leafy_request_Q lush_request_Q); [simpl; lra|simpl; lra|exact Fv].
Defined.

Lemma banded_clip (nid label : string) (x width : Q) :
  (0 <= width)%Q -> (width <= 1)%Q ->
  banded width
    (NodePrediction.mk nid label (clip01 x)
       (py_max #0.0 (clip01 x - width)) (py_min #1.0 (clip01 x + width))).
Proof.
  intros W0 W1. pose proof (clip01_Q_range x) as [R0 R1].
  set (m := clip01 x) in *. clearbody m.
  unfold banded, band.
  cbn [NodePrediction.mean NodePrediction.ci_lower NodePrediction.ci_upper].
  unfold py_max, py_min. cbn [lit fadd fsub fmul flt Q_PyFloat].
  destruct (Qltb_spec 0.0 (m - width)), (Qltb_spec (m + width) 1.0);
    repeat split; intros; try lra.
  all: match goal with H : _ /\ _ |- _ => destruct H; lra end.
Qed.

(** X15.  Width of the reported intervals.  Every Model A interval is at
    least 0.15 and at most 0.30 wide, every Model B interval at least 0.12
    and at most 0.24; an interval has the full width exactly when its mean
    is at least the half-width away from both 0 and 1, and is cut short at 0
    or 1 otherwise. *)
Theorem X15_interval_widths (request : PredictRequest.t Q) :
  Forall (banded 0.15) (PredictResponse.model_a (predict request)) /\
  Forall (banded 0.12) (PredictResponse.model_b (predict request)).
Proof.
  unfold predict; cbn [PredictResponse.model_a PredictResponse.model_b].
  rewrite model_a_preds_map, model_b_preds_map.
  unfold model_a_nodes, model_b_nodes, positive_affect_b, state_anxiety_b,
    perceived_stress_b, task_performance_b.
  cbn [map]. split.
  - repeat (apply Forall_cons; [apply banded_clip; vm_compute; discriminate|]).
    apply Forall_nil.
  - repeat (apply Forall_cons; [apply banded_clip; vm_compute; discriminate|]).
    apply Forall_nil.
Qed.



Lemma clip01_Q_above (x s : Q) :
  (0 <= s)%Q -> (x <= 1)%Q -> (x <= clip01 (x + s))%Q.
Proof. intros S0 X1. q_solve. Qed.

Lemma clip01_Q_le_self (x : Q) : (x <= 1)%Q -> (x <= clip01 x)%Q.
Proof. intros X1. q_solve. Qed.

(** X17.  Downstream of the interaction term.  With wood coverage and plant
    density not negative and the unclipped positive affect at most 1, Model B
    is nowhere worse than Model A: the same warmth, naturalness and cognitive
    load, no lower positive affect and task performance, no higher anxiety
    and stress. *)
Theorem X17_model_b_no_worse_than_model_a (request : PredictRequest.t Q) :
  (0 <= PredictRequest.wood_coverage request)%Q ->
  (0 <= PredictRequest.plant_density request)%Q ->
  (positive_affect request <= 1)%Q ->
  Forall2 (fun (up : bool) (xy : Q * Q) => no_worse up (fst xy) (snd xy))
    higher_is_better
    (combine (means (PredictResponse.model_a (predict request)))
             (means (PredictResponse.model_b (predict request)))).
Proof.
  intros W0 P0 P1.
  pose proof (synergy_Q_nonneg request W0 P0) as S0.
  rewrite means_model_a, means_model_b. unfold higher_is_better. cbn [combine].
  assert (Hpa : (positive_affect request <= positive_affect_b request)%Q).
  { unfold positive_affect_b. now apply clip01_Q_above. }
  pose proof (clip01_Q_range (positive_affect request + synergy request)) as [B0 B1].
  fold (positive_affect_b request) in B0, B1.
  apply Forall2_cons; [apply Qle_refl|].
  apply Forall2_cons; [apply Qle_refl|].
  apply Forall2_cons; [apply Qle_refl|].
  apply Forall2_cons.
  { cbn [no_worse fst snd]. unfold positive_affect_b. apply clip01_Q_mono.
    cbn [fadd Q_PyFloat]. lra. }
  apply Forall2_cons.
  { cbn [no_worse fst snd]. unfold state_anxiety_b, state_anxiety.
    apply clip01_Q_mono. cbn [lit fadd fsub fmul Q_PyFloat]. lra. }
  apply Forall2_cons.
  { cbn [no_worse fst snd]. unfold perceived_stress_b, perceived_stress.
    apply clip01_Q_mono. cbn [lit fadd fsub fmul Q_PyFloat]. lra. }
  apply Forall2_cons.
  { cbn [no_worse fst snd]. unfold task_performance_b, state_anxiety_b.
    rewrite (step7_clipped_feed (positive_affect_b request) (cognitive_load request) B0 B1).
    unfold task_performance, state_anxiety.
    apply clip01_Q_mono. cbn [lit fadd fsub fmul Q_PyFloat]. lra. }
  apply Forall2_nil.
Qed.

Lemma X17_model_b_no_worse_than_model_a_witness :
  (positive_affect leafy_request_Q <= 1)%Q /\
  Forall2 (fun (up : bool) (xy : Q * Q) => no_worse up (fst xy) (snd xy))
    higher_is_better
    (combine (means (PredictResponse.model_a (predict leafy_request_Q)))
             (means (PredictResponse.model_b (predict leafy_request_Q)))).
Proof.
  assert (P1 : (positive_affect leafy_request_Q <= 1)%Q) by (vm_compute; discriminate).
  split; [exact P1|].
  apply (X17_model_b_no_worse_than_model_a leafy_request_Q); [simpl; lra|simpl; lra|exact P1].
Defined.

(** Without the bound on positive affect the comparison can turn round: at
    full wood coverage and plant density Model A reports anxiety 0, Model B
    0.12. *)
Lemma lush_request_anxiety :
  (clip01 (state_anxiety lush_request_Q) == 0)%Q /\
  (state_anxiety_b lush_request_Q == 0.12)%Q.
Proof. split; vm_compute; reflexivity. Qed.



(* ------------------------------------------------------------------ *)
(** ** Further properties: [clip01] and requests that are not numbers *)
(* ------------------------------------------------------------------ *)

(** X19.  [clip01] over the rationals: clipping twice is clipping once; the
    values it leaves alone are exactly those of [0,1]; everything at or below
    0 goes to 0 and everything at or above 1 to 1; and it never moves two
    scores further apart. *)
Theorem X19_clip01_laws_Q (x y : Q) :
  (clip01 (clip01 x) == clip01 x)%Q /\
  ((clip01 x == x)%Q <-> in_unit x) /\
  ((x <= 0)%Q -> (clip01 x == 0)%Q) /\
  ((1 <= x)%Q -> (clip01 x == 1)%Q) /\
  (Qabs (clip01 x - clip01 y) <= Qabs (x - y))%Q.
Proof.
  split; [|split; [|split; [|split]]].
  - apply clip01_Q_id. apply clip01_Q_range.
  - unfold in_unit. split.
    + intros E. pose proof (clip01_Q_range x). lra.
    + apply clip01_Q_id.
  - intros H. q_solve.
  - intros H. q_solve.
  - pose proof (Qle_Qabs (x - y)) as A1.
    pose proof (Qle_Qabs (- (x - y))) as A2. rewrite Qabs_opp in A2.
    set (d := Qabs (x - y)) in *. clearbody d.
    apply Qabs_Qle_condition. split; q_solve.
Qed.

Lemma clip01_B64_unfold (x : B64.t) :
  clip01 x = if SFltb x one64 then (if SFltb zero64 x then x else zero64) else one64.
Proof.
  unfold clip01, py_max, py_min. rewrite lit_zero64, lit_one64.
  cbn [flt B64_PyFloat]. unfold B64.ltb.
  destruct (SFltb x one64); [reflexivity|].
  reflexivity.
Qed.

(** X20.  [clip01] on doubles, for every operand: clipping twice is clipping
    once; the result is a finite double, never NaN, never an infinity and
    never the negative zero; NaN is sent to 1.0, either zero to +0.0,
    +infinity to 1.0 and -infinity to 0.0. *)
Theorem X20_clip01_B64 (x : B64.t) :
  clip01 (clip01 x) = clip01 x /\
  is_finite (clip01 x) = true /\
  clip01 x <> S754_zero true /\
  (is_nan x = true -> clip01 x = one64) /\
  (is_zero x = true -> clip01 x = zero64) /\
  (x = S754_infinity false -> clip01 x = one64) /\
  (x = S754_infinity true -> clip01 x = zero64).
Proof.
  assert (C1 : clip01 one64 = one64) by (vm_compute; reflexivity).
  assert (C0 : clip01 zero64 = zero64) by (vm_compute; reflexivity).
  rewrite (clip01_B64_unfold x).
  destruct (SFltb x one64) eqn:L1; [destruct (SFltb zero64 x) eqn:L0|].
  - split; [|split; [|split; [|split; [|split; [|split]]]]].
    + rewrite clip01_B64_unfold, L1, L0. reflexivity.
    + destruct x as [s|[|]| |s m e]; try reflexivity;
        vm_compute in L1, L0; discriminate.
    + intros ->. vm_compute in L0. discriminate.
    + intros N. destruct x; try discriminate N. vm_compute in L1. discriminate L1.
    + intros Z. destruct x as [s| | |]; try discriminate Z.
      vm_compute in L0. discriminate L0.
    + intros ->. vm_compute in L1. discriminate L1.
    + intros ->. vm_compute in L0. discriminate L0.
  - split; [exact C0|]. split; [reflexivity|]. split; [discriminate|].
    split; [|split; [|split]]; try reflexivity.
    + intros N. destruct x; try discriminate N. vm_compute in L1. discriminate L1.
    + intros ->. vm_compute in L1. discriminate L1.
  - split; [exact C1|]. split; [reflexivity|]. split; [discriminate|].
    split; [|split; [|split]]; try reflexivity.
    + intros Z. destruct x as [s| | |]; try discriminate Z.
      destruct s; vm_compute in L1; discriminate L1.
    + intros ->. vm_compute in L1. discriminate L1.
Qed.

Section NaNRequests.

Lemma add_nan (x y : B64.t) :
  is_nan x || is_nan y = true -> is_nan (x + y) = true.
Proof. destruct x, y; try discriminate; reflexivity. Qed.

Lemma sub_nan (x y : B64.t) :
  is_nan x || is_nan y = true -> is_nan (x - y) = true.
Proof. destruct x, y; try discriminate; reflexivity. Qed.

Lemma mul_nan (x y : B64.t) :
  is_nan x || is_nan y = true -> is_nan (x * y) = true.
Proof. destruct x, y; try discriminate; reflexivity. Qed.

Lemma nan_l (a b : bool) : a = true -> a || b = true.
Proof. now intros ->. Qed.

Lemma nan_r (a b : bool) : b = true -> a || b = true.
Proof. intros ->. apply orb_true_r. Qed.

Lemma clip01_nan (x : B64.t) : is_nan x = true -> clip01 x = one64.
Proof. destruct x; try discriminate. intros _. vm_compute. reflexivity. Qed.

Variable request : PredictRequest.t B64.t.
Hypothesis some_nan :
  is_nan (PredictRequest.wood_coverage request)
  || is_nan (PredictRequest.plant_density request)
  || is_nan (PredictRequest.spatial_clutter request)
  || is_nan (PredictRequest.glare_index request) = true.

Lemma positive_affect_nan : is_nan (positive_affect request) = true.
Proof.
  unfold positive_affect, perceived_warmth, perceived_naturalness, cognitive_load,
    w, plants, clutter, glare.
  apply orb_true_iff in some_nan as [N|N];
    [apply orb_true_iff in N as [N|N]; [apply orb_true_iff in N as [N|N]|]|].
  - (* wood coverage: through warmth *)
    apply sub_nan, nan_l, add_nan, nan_l, add_nan, nan_r, mul_nan, nan_r,
      sub_nan, nan_l, add_nan, nan_r, mul_nan, nan_r. exact N.
  - (* plant density: through naturalness *)
    apply sub_nan, nan_l, add_nan, nan_r, mul_nan, nan_r,
      sub_nan, nan_l, add_nan, nan_r, mul_nan, nan_r. exact N.
  - (* clutter: through naturalness *)
    apply sub_nan, nan_l, add_nan, nan_r, mul_nan, nan_r,
      sub_nan, nan_r, mul_nan, nan_r. exact N.
  - (* glare: through warmth *)
    apply sub_nan, nan_l, add_nan, nan_l, add_nan, nan_r, mul_nan, nan_r,
      sub_nan, nan_r, mul_nan, nan_r. exact N.
Qed.

Lemma state_anxiety_nan : is_nan (state_anxiety request) = true.
Proof.
  unfold state_anxiety.
  apply add_nan, nan_l, sub_nan, nan_r, mul_nan, nan_r, positive_affect_nan.
Qed.

Lemma perceived_stress_nan : is_nan (perceived_stress request) = true.
Proof.
  unfold perceived_stress.
  apply add_nan, nan_l, sub_nan, nan_r, mul_nan, nan_r, positive_affect_nan.
Qed.

Lemma task_performance_nan : is_nan (task_performance request) = true.
Proof.
  unfold task_performance.
  apply sub_nan, nan_r, mul_nan, nan_r, state_anxiety_nan.
Qed.

Lemma positive_affect_b_nan : positive_affect_b request = one64.
Proof.
  unfold positive_affect_b. apply clip01_nan, add_nan, nan_l, positive_affect_nan.
Qed.
End NaNRequests.

(** X21.  A request that carries NaN in any of its four fields is answered,
    not rejected: Model A reports exactly 1.0 for positive affect, anxiety,
    stress and task performance alike, and Model B reports 1.0 for positive
    affect. *)
Theorem X21_nan_request_scores (request : PredictRequest.t B64.t) :
  is_nan (PredictRequest.wood_coverage request)
  || is_nan (PredictRequest.plant_density request)
  || is_nan (PredictRequest.spatial_clutter request)
  || is_nan (PredictRequest.glare_index request) = true ->
  skipn 3 (means (PredictResponse.model_a (predict request)))
    = [one64; one64; one64; one64] /\
  nth_error (means (PredictResponse.model_b (predict request))) 3 = Some one64.
Proof.
  intros N. rewrite means_model_a, means_model_b. cbn [skipn nth_error].
  rewrite (clip01_nan _ (positive_affect_nan request N)).
  rewrite (clip01_nan _ (state_anxiety_nan request N)).
  rewrite (clip01_nan _ (perceived_stress_nan request N)).
  rewrite (clip01_nan _ (task_performance_nan request N)).
  rewrite (positive_affect_b_nan request N).
  split; reflexivity.
Qed.

Lemma X21_nan_request_scores_witness :
  skipn 3 (means (PredictResponse.model_a (predict wild_request)))
    = [one64; one64; one64; one64] /\
  nth_error (means (PredictResponse.model_b (predict wild_request))) 3 = Some one64.
Proof. apply (X21_nan_request_scores wild_request). reflexivity. Defined.

(* ------------------------------------------------------------------ *)
(** ** Further properties: the registered effect sizes *)
(* ------------------------------------------------------------------ *)

(** X22.  Every registered effect has a sign: its standard deviation is
    positive, its interval lies strictly around its mean, and the interval
    does not contain zero.  This holds for the exact decimal values and for
    the doubles the store holds. *)
Theorem X22_registered_effects_have_a_sign :
  Forall (fun ed : EdgeDetail.t Q =>
            let ps := EdgeDetail.param ed in
            (0 < ParamSummary.sd ps)%Q /\
            (ParamSummary.ci_lower ps < ParamSummary.mean ps)%Q /\
            (ParamSummary.mean ps < ParamSummary.ci_upper ps)%Q /\
            ((0 < ParamSummary.ci_lower ps)%Q \/ (ParamSummary.ci_upper ps < 0)%Q))
    (dict_values EDGES) /\
  Forall (fun ed : EdgeDetail.t B64.t =>
            let ps := EdgeDetail.param ed in
            B64.ltb zero64 (ParamSummary.sd ps) = true /\
            B64.ltb (ParamSummary.ci_lower ps) (ParamSummary.mean ps) = true /\
            B64.ltb (ParamSummary.mean ps) (ParamSummary.ci_upper ps) = true /\
            (B64.ltb zero64 (ParamSummary.ci_lower ps) = true \/
             B64.ltb (ParamSummary.ci_upper ps) zero64 = true))
    (dict_values EDGES).
Proof.
  split.
  - unfold dict_values. apply Forall_map.
    apply (after_calls_Forall
             (fun ed : EdgeDetail.t Q =>
                let ps := EdgeDetail.param ed in
                (0 < ParamSummary.sd ps)%Q /\
                (ParamSummary.ci_lower ps < ParamSummary.mean ps)%Q /\
                (ParamSummary.mean ps < ParamSummary.ci_upper ps)%Q /\
                ((0 < ParamSummary.ci_lower ps)%Q \/ (ParamSummary.ci_upper ps < 0)%Q)));
      [|constructor].
    repeat (apply Forall_cons;
            [split; [vm_compute; reflexivity|];
             split; [vm_compute; reflexivity|];
             split; [vm_compute; reflexivity|];
             first [left; vm_compute; reflexivity | right; vm_compute; reflexivity]|]).
    apply Forall_nil.
  - unfold dict_values. apply Forall_map.
    apply (after_calls_Forall
             (fun ed : EdgeDetail.t B64.t =>
                let ps := EdgeDetail.param ed in
                B64.ltb zero64 (ParamSummary.sd ps) = true /\
                B64.ltb (ParamSummary.ci_lower ps) (ParamSummary.mean ps) = true /\
                B64.ltb (ParamSummary.mean ps) (ParamSummary.ci_upper ps) = true /\
                (B64.ltb zero64 (ParamSummary.ci_lower ps) = true \/
                 B64.ltb (ParamSummary.ci_upper ps) zero64 = true)));
      [|constructor].
    repeat (apply Forall_cons;
            [split; [vm_compute; reflexivity|];
             split; [vm_compute; reflexivity|];
             split; [vm_compute; reflexivity|];
             first [left; vm_compute; reflexivity | right; vm_compute; reflexivity]|]).
    apply Forall_nil.
Qed.
